(** * plugin-updater: a shallow embedding of [main.py] and its properties

    The script walks a static catalog [PLUGINS] of download sources, asks
    each source for the current version of its artifact, compares it with
    the version remembered in [plugin_versions.json], and downloads what
    changed into the [plugins] directory.

    Modelling decisions, all taken from the source:

    - Python [str] is [string], a character being a code point below 256
      (Latin-1); text with code points beyond is outside the model.
      [str.lower], [str.split], [in], [str.replace] and [repr] are written
      out on that alphabet.
    - The in-memory ledger [VersionFileHandler._data : Dict[str, int]] is a
      [gmap string Z]; the catalog and every job ([Dict[str, str]]) are
      insertion-ordered association lists, as Python dicts iterate.
    - The decoded body of a metadata response is a record holding the four
      fields the handlers read, each optional (a missing key is a
      [KeyError]); the fields have the types of the code's annotations.
    - All effects are threaded through one [state]: the object fields, the
      two places on disk the script writes, and the trace of I/O events.
      Exceptions are a second outcome carrying the state reached so far.
    - The network is an oracle [net]: the reply to the n-th request of the
      run, by URL.  A reply may be a response or an exception raised by
      [requests.get]; a keyboard interrupt is delivered there, where the
      script blocks.
    - The machine the script runs on is a second oracle [host]: where the
      path of a download leads once the operating system has resolved it
      (a file of the plugin directory, the ledger file, another file, or
      nowhere), what the body of a download is when read back as a ledger,
      and whether the log file can be opened.  What Python and POSIX fix
      for every host is written out: a path with a NUL character, and a
      path that names a directory by its last component.
    - Reading and writing [plugin_versions.json] and creating the plugin
      directory succeed; once a file is open, writing the body succeeds.
    - An exception or an interrupt that reaches [main] before the ledger
      object exists is delivered in [run_logging], the only call [main]
      makes before the constructor.
    - [VersionFileHandler.__del__] runs when the object is reclaimed, which
      under reference counting is when the frame of [main] is released:
      after [main] returns, or after the handler of the exception that
      unwound it has finished.  Where no object was created, nothing is
      reclaimed. *)

From Stdlib Require Import ZArith String Ascii List Lia.
From stdpp Require Import gmap strings list fin_maps pretty.

Open Scope string_scope.

(** ** Python string operations *)

Module PyStr.

(** The character [chr 34], which a string literal cannot hold. *)
Definition dquote : string := String "034"%char EmptyString.

(** The character [chr 0]. *)
Definition NUL : string := String "000"%char EmptyString.

(** [c.lower()] of one character.  Below 256 the capitals are A to Z and,
    from 192 to 222, the accented capitals from A grave to thorn, without
    the multiplication sign 215 between them; each has its small letter
    32 places on. *)
Definition lower_char (c : ascii) : ascii :=
  let n := nat_of_ascii c in
  if ((65 <=? n)%nat && (n <=? 90)%nat)
     || ((192 <=? n)%nat && (n <=? 222)%nat && negb (n =? 215)%nat)
  then ascii_of_nat (n + 32) else c.

(** [s.lower()]: below 256 no capital depends on its neighbours. *)
Fixpoint lower (s : string) : string :=
  match s with
  | EmptyString => EmptyString
  | String c t => String (lower_char c) (lower t)
  end.

(** [s.split(sep)] for a one-character separator: never empty. *)
Fixpoint split (sep : ascii) (s : string) : list string :=
  match s with
  | EmptyString => [EmptyString]
  | String c t =>
      if Ascii.eqb c sep then EmptyString :: split sep t
      else match split sep t with
           | h :: r => String c h :: r
           | [] => [String c EmptyString]
           end
  end.

(** [needle in hay] *)
Fixpoint contains (needle hay : string) {struct hay} : bool :=
  String.prefix needle hay ||
  match hay with
  | EmptyString => false
  | String _ t => contains needle t
  end.

(** [s.replace(old, new)] for a non-empty [old]: every occurrence, left to
    right, without overlap.  [skip] counts the characters of a matched
    [old] still to be dropped. *)
Fixpoint replace_from (old new : string) (skip : nat) (s : string) : string :=
  match s with
  | EmptyString => EmptyString
  | String c t =>
      match skip with
      | S k => replace_from old new k t
      | O =>
          if String.prefix old s
          then new ++ replace_from old new (String.length old - 1) t
          else String c (replace_from old new 0 t)
      end
  end.

Definition replace (old new s : string) : string := replace_from old new 0 s.

(** [l[i]] on a list, with Python's negative indices; [None] stands for
    the [IndexError]. *)
Definition getitem {A : Type} (l : list A) (i : Z) : option A :=
  let n := Z.of_nat (length l) in
  if (0 <=? i)%Z then nth_error l (Z.to_nat i)
  else if (- n <=? i)%Z then nth_error l (Z.to_nat (n + i))
  else None.

(** [repr] of a string: single quotes unless the text holds a single quote
    and no double quote; the characters that do not print (the controls
    below 32 and from 127 to 159, the no-break space 160 and the soft
    hyphen 173) are escaped. *)
Definition hex_digit (n : nat) : ascii :=
  if (n <? 10)%nat then ascii_of_nat (48 + n) else ascii_of_nat (87 + n).

Definition repr_char (q c : ascii) : string :=
  let n := nat_of_ascii c in
  if Ascii.eqb c q || Ascii.eqb c "\"%char then String "\"%char (String c EmptyString)
  else if (n =? 9)%nat then "\t"
  else if (n =? 10)%nat then "\n"
  else if (n =? 13)%nat then "\r"
  else if (n <? 32)%nat || ((127 <=? n)%nat && (n <=? 160)%nat) || (n =? 173)%nat
       then "\x" ++ String (hex_digit (n / 16)) (String (hex_digit (n mod 16)) EmptyString)
  else String c EmptyString.

Fixpoint repr_chars (q : ascii) (s : string) : string :=
  match s with
  | EmptyString => EmptyString
  | String c t => repr_char q c ++ repr_chars q t
  end.

Definition repr (s : string) : string :=
  let q := if contains "'" s && negb (contains dquote s) then "034"%char else "'"%char in
  String q (repr_chars q s ++ String q EmptyString).

End PyStr.

(** ** Data *)

(** The exceptions the script can meet.  [OSError] is the class [IOError]
    names in Python 3; [JSONDecodeError] is a subclass of [ValueError]. *)
Inductive exn :=
| KeyboardInterrupt
| OSError
| ValueError
| JSONDecodeError
| KeyError
| IndexError
| TypeError
| AttributeError
| StopIteration.

(** [LookupError] is the base class of [KeyError] and [IndexError]. *)
Definition is_LookupError (e : exn) : bool :=
  match e with
  | KeyError | IndexError => true
  | _ => false
  end.

(** A value of [PLUGINS]: a file name, a dict from artifact index to file
    name in insertion order, or an object of another type. *)
Inductive files :=
| FStr (file : string)
| FDict (items : list (Z * string)).

Inductive catalog_key := KeyStr (url : string) | KeyOther.
Inductive catalog_value := Files (f : files) | ValueOther.

Definition catalog := list (catalog_key * catalog_value).

(** A download job, [Dict[str, str]]; the direct branch stores the catalog
    value itself, whatever its shape. *)
Definition job := list (string * files).

(** [d[k] = v] on an insertion-ordered dict. *)
Fixpoint dict_set {V : Type} (k : string) (v : V) (d : list (string * V)) : list (string * V) :=
  match d with
  | [] => [(k, v)]
  | (k', v') :: r => if String.eqb k k' then (k, v) :: r else (k', v') :: dict_set k v r
  end.

(** [str(x)] of a catalog value, as an f-string renders it. *)
Definition repr_item (kv : Z * string) : string :=
  pretty (fst kv) ++ ": " ++ PyStr.repr (snd kv).

Fixpoint join (sep : string) (l : list string) : string :=
  match l with
  | [] => EmptyString
  | [x] => x
  | x :: r => x ++ sep ++ join sep r
  end.

Definition str_files (f : files) : string :=
  match f with
  | FStr s => s
  | FDict d => "{" ++ join ", " (map repr_item d) ++ "}"
  end.

(** The decoded JSON body of a metadata response. *)
Record metadata := Metadata {
  md_id : option Z;                          (* data['id'] *)
  md_number : option Z;                      (* data['number'] *)
  md_artifacts : option (list (option string)); (* data['artifacts'][i]['relativePath'] *)
  md_assets : option (list (option string))  (* data['assets'][i]['browser_download_url'] *)
}.

Record response := Response {
  ok : bool;
  json : option metadata;   (* [None]: the body is not JSON *)
  content : string
}.

Inductive reply :=
| Reply (r : response)
| NetRaise (e : exn).

(** The network: the reply to the request numbered [n] of the run. *)
Definition network := nat -> string -> reply.

Inductive level := INFO | ERROR | CRITICAL.

Inductive event :=
| EvReadVersions
| EvWriteVersions (m : gmap string Z)
| EvMakeDirs
| EvGet (url : string)
| EvWritePlugin (path content : string)
| EvLog (l : level) (msg : string)
| EvLogException (e : exn).

(** What [plugin_versions.json] holds. *)
Inductive version_file_content :=
| ValidJson (m : gmap string Z)
| NotJson.

(** Where a path opened for writing leads, once the operating system has
    followed its components. *)
Inductive place :=
| InPlugins (entry : string)   (* the regular file [entry] of the plugin directory *)
| OnLedger                     (* [plugin_versions.json] of the working directory *)
| Elsewhere.                   (* another file; the script reads none *)

(** The machine the script runs on. *)
Record host := Host {
  (* the file [open(path, 'wb')] creates or truncates for a path that
     starts with the plugin directory; [None]: it raises an [OSError] *)
  lands : string -> option place;
  (* what [plugin_versions.json] holds for a later [json.load] once a body
     has been written into it *)
  decode : string -> version_file_content;
  (* what opening the log file in [run_logging] raises, if anything *)
  log_setup : option exn
}.

Record state := State {
  data : gmap string Z;                        (* VersionFileHandler._data *)
  updated : nat;                               (* PluginUpdater._updated *)
  downloaded : nat;
  total : nat;
  handler : bool;                              (* a VersionFileHandler object exists *)
  version_file : option version_file_content;  (* [None]: no such file *)
  plugin_dir : option (gmap string string);    (* [None]: no such directory *)
  requests_made : nat;
  trace : list event                           (* oldest first *)
}.

(** The disk before the script starts. *)
Record world := World {
  w_version_file : option version_file_content;
  w_plugin_dir : option (gmap string string)
}.

Definition initial (w : world) : state :=
  State ∅ 0 0 0 false (w_version_file w) (w_plugin_dir w) 0 [].

(** ** State updates *)

Definition set_data (m : gmap string Z) (s : state) : state :=
  State m (updated s) (downloaded s) (total s) (handler s)
        (version_file s) (plugin_dir s) (requests_made s) (trace s).

Definition set_counters (u d t : nat) (s : state) : state :=
  State (data s) u d t (handler s)
        (version_file s) (plugin_dir s) (requests_made s) (trace s).

Definition set_handler (b : bool) (s : state) : state :=
  State (data s) (updated s) (downloaded s) (total s) b
        (version_file s) (plugin_dir s) (requests_made s) (trace s).

Definition set_version_file (f : option version_file_content) (s : state) : state :=
  State (data s) (updated s) (downloaded s) (total s) (handler s)
        f (plugin_dir s) (requests_made s) (trace s).

Definition set_plugin_dir (d : option (gmap string string)) (s : state) : state :=
  State (data s) (updated s) (downloaded s) (total s) (handler s)
        (version_file s) d (requests_made s) (trace s).

Definition emit (e : event) (s : state) : state :=
  State (data s) (updated s) (downloaded s) (total s) (handler s)
        (version_file s) (plugin_dir s) (requests_made s) (trace s ++ [e]).

Definition count_request (s : state) : state :=
  State (data s) (updated s) (downloaded s) (total s) (handler s)
        (version_file s) (plugin_dir s) (S (requests_made s)) (trace s).

(** The state once [set(name, v)] and [_updated += 1] have run. *)
Definition recorded (name : string) (v : Z) (s : state) : state :=
  set_counters (S (updated s)) (downloaded s) (total s)
               (set_data (<[name := v]> (data s)) s).

(** The state once [_total += n] has run. *)
Definition tallied (n : nat) (s : state) : state :=
  set_counters (updated s) (downloaded s) (total s + n) s.

(** The state once a request for [url] has left. *)
Definition sent (url : string) (s : state) : state := count_request (emit (EvGet url) s).

(** ** The monad of the script: state and exceptions *)

Inductive result (A : Type) :=
| Ok (a : A) (s : state)
| Raise (e : exn) (s : state).
Arguments Ok {A} a s.
Arguments Raise {A} e s.

Definition M (A : Type) : Type := state -> result A.

#[global] Instance M_ret : MRet M := fun A a s => Ok a s.

#[global] Instance M_bind : MBind M := fun A B k m s =>
  match m s with
  | Ok a s' => k a s'
  | Raise e s' => Raise e s'
  end.

Definition raise {A : Type} (e : exn) : M A := fun s => Raise e s.

Definition gets {A : Type} (f : state -> A) : M A := fun s => Ok (f s) s.

Definition modify (f : state -> state) : M unit := fun s => Ok tt (f s).

(** A lookup that reads no state: its value, or the exception it raises. *)
Definition lookup_result (A : Type) : Type := exn + A.

Definition lift {A : Type} (r : lookup_result A) : M A :=
  match r with
  | inr a => mret a
  | inl e => raise e
  end.

(** [o] when it holds a value, the exception [e] otherwise. *)
Definition expect {A : Type} (e : exn) (o : option A) : lookup_result A :=
  match o with
  | Some a => inr a
  | None => inl e
  end.

(** The state a computation ends in, however it ends. *)
Definition final {A : Type} (r : result A) : state :=
  match r with
  | Ok _ s => s
  | Raise _ s => s
  end.

(** ** Constants of the script *)

Definition VERSION_FILE : string := "plugin_versions.json".

Definition PLUGIN_DIR : string := "plugins".

(** [f'{PLUGIN_DIR}/{file}'] *)
Definition plugin_path (file : string) : string := PLUGIN_DIR ++ "/" ++ file.

Definition spiget_latest (resource : string) : string :=
  "https://api.spiget.org/v2/resources/" ++ resource ++ "/versions/latest".

Definition spiget_download (resource : string) (version : Z) : string :=
  "https://api.spiget.org/v2/resources/" ++ resource ++ "/download?version=" ++ pretty version.

(** [url.split('.')[-1]] *)
Definition resource_of (url : string) : string :=
  List.last (PyStr.split "." url) EmptyString.

Definition jenkins_api (url : string) : string := url ++ "/lastSuccessfulBuild/api/json".

Definition jenkins_artifact (url rel : string) : string :=
  url ++ "/lastSuccessfulBuild/artifact/" ++ rel.

Definition github_api (url : string) : string :=
  PyStr.replace "github.com" "api.github.com/repos" url ++ "/releases/latest".

Definition msg_running : string := "PluginUpdater is running.".
Definition msg_no_plugins : string := "Plugins are not specified.".

Definition msg_finished (u d t : nat) : string :=
  "PluginUpdater is finished (updated/downloaded/total: "
  ++ pretty u ++ "/" ++ pretty d ++ "/" ++ pretty t ++ ").".

Definition msg_download_failed (file : files) : string :=
  "Failed to download the file " ++ PyStr.dquote ++ str_files file ++ PyStr.dquote ++ ".".

Definition msg_no_data (url : string) : string :=
  "Failed to get data from URL: " ++ PyStr.dquote ++ url ++ PyStr.dquote ++ ".".

(** [files[next(iter(files))]]: the value under the first key.  Iterating a
    string yields its characters, which do not index a string. *)
Definition first_file (f : files) : M string :=
  match f with
  | FDict [] => raise StopIteration
  | FDict ((_, file) :: _) => mret file
  | FStr EmptyString => raise StopIteration
  | FStr (String _ _) => raise TypeError
  end.

(** [data[field][i][key]] on a decoded body: [field] missing is a
    [KeyError], [i] out of range an [IndexError], [key] missing a
    [KeyError]. *)
Definition indexed (field : option (list (option string))) (i : Z) : lookup_result string :=
  match field with
  | None => inl KeyError
  | Some l =>
      match PyStr.getitem l i with
      | None => inl IndexError
      | Some None => inl KeyError
      | Some (Some s) => inr s
      end
  end.

(** [f'{url}/lastSuccessfulBuild/artifact/{data["artifacts"][i]["relativePath"]}'] *)
Definition jenkins_url (url : string) (data : metadata) (i : Z) : lookup_result string :=
  match indexed (md_artifacts data) i with
  | inr rel => inr (jenkins_artifact url rel)
  | inl e => inl e
  end.

(** [data['assets'][i]['browser_download_url']] *)
Definition github_url (data : metadata) (i : Z) : lookup_result string :=
  indexed (md_assets data) i.

Inductive variant := Marketplace | ContinuousIntegration | SourceForge | Direct.

(** How the loop of [run] ends: the catalog is exhausted, or the type
    check executed [return]. *)
Inductive loop_end := Exhausted | Returned.

(** [url.lower().split('/')[2]] *)
Definition domain_of (url : string) : option string :=
  nth_error (PyStr.split "/" (PyStr.lower url)) 2.

(** The chain of [if]/[elif] of [run] on the domain. *)
Definition classify (domain : string) : variant :=
  if PyStr.contains "spigotmc.org" domain then Marketplace
  else if PyStr.contains "ci." domain then ContinuousIntegration
  else if PyStr.contains "github.com" domain then SourceForge
  else Direct.

(** [len(files) if type(files) == dict else 1] *)
Definition file_count (f : files) : nat :=
  match f with
  | FDict d => length d
  | FStr _ => 1
  end.

(** A path whose last component is empty, a dot or two dots names a
    directory, whatever the directories on the way are. *)
Definition names_directory (path : string) : bool :=
  let name := List.last (PyStr.split "/" path) EmptyString in
  String.eqb name "" || String.eqb name "." || String.eqb name "..".

(** [open(path, 'wb')] for a path that starts with the plugin directory:
    the file it creates or truncates, or the exception it raises.  Python
    refuses a path that holds a NUL character with a [ValueError] before
    it asks the operating system; a path that names a directory cannot be
    opened for writing; for the others the host answers. *)
Definition open_wb (h : host) (path : string) : lookup_result place :=
  if PyStr.contains PyStr.NUL path then inl ValueError
  else if names_directory path then inl OSError
  else expect OSError (lands h path).

(** What a body written through an open file changes on disk. *)
Definition store (h : host) (p : place) (content : string) (d : gmap string string)
    (s : state) : state :=
  match p with
  | InPlugins entry => set_plugin_dir (Some (<[entry := content]> d)) s
  | OnLedger => set_version_file (Some (decode h content)) s
  | Elsewhere => s
  end.

Section Updater.

Variable net : network.
Variable h : host.

(** *** Logging and the network *)

Definition logging (l : level) (msg : string) : M unit := modify (emit (EvLog l msg)).

(** [requests.get(url)] *)
Definition requests_get (url : string) : M response := fun s =>
  match net (requests_made s) url with
  | Reply r => Ok r (sent url s)
  | NetRaise e => Raise e (sent url s)
  end.

(** [response.json()] *)
Definition response_json (r : response) : M metadata := lift (expect JSONDecodeError (json r)).

(** *** VersionFileHandler *)

Definition get (key : string) : M (option Z) := gets (fun s => data s !! key).

Definition set (key : string) (value : Z) : M unit :=
  modify (fun s => set_data (<[key := value]> (data s)) s).

Definition read : M unit := fun s =>
  match version_file s with
  | Some (ValidJson m) => Ok tt (set_data m (emit EvReadVersions s))
  | Some NotJson => Raise JSONDecodeError (emit EvReadVersions s)
  | None => Raise OSError s
  end.

Definition write : M unit := fun s =>
  Ok tt (set_version_file (Some (ValidJson (data s))) (emit (EvWriteVersions (data s)) s)).

Definition _handle_file : M unit := fun s =>
  match version_file s with
  | Some _ => read s
  | None => write s
  end.

Definition VersionFileHandler__init__ : M unit :=
  modify (set_data ∅);; _handle_file.

(** [__del__]: [write] cannot fail here, so the state it leaves is taken. *)
Definition VersionFileHandler__del__ (s : state) : state := final (write s).

(** The ledger object is reclaimed, if there is one. *)
Definition reclaim (s : state) : state :=
  if handler s then VersionFileHandler__del__ s else s.

(** *** PluginUpdater *)

Definition _handle_dirs : M unit := fun s =>
  match plugin_dir s with
  | Some _ => Ok tt s
  | None => Ok tt (set_plugin_dir (Some ∅) (emit EvMakeDirs s))
  end.

(** [VersionFileHandler()] makes the object, then runs its [__init__]. *)
Definition PluginUpdater__init__ : M unit :=
  modify (set_counters 0 0 0);;
  modify (set_handler true);;
  VersionFileHandler__init__;;
  _handle_dirs.

Definition incr_updated : M unit :=
  modify (fun s => set_counters (S (updated s)) (downloaded s) (total s) s).

Definition incr_downloaded : M unit :=
  modify (fun s => set_counters (updated s) (S (downloaded s)) (total s) s).

Definition add_total (n : nat) : M unit := modify (tallied n).

(** [open(path, 'wb')] and [outfile.write(content)].  Without the plugin
    directory no path below it can be opened. *)
Definition write_plugin (path content : string) : M unit := fun s =>
  match open_wb h path, plugin_dir s with
  | inl e, _ => Raise e s
  | inr _, None => Raise OSError s
  | inr p, Some d => Ok tt (store h p content d (emit (EvWritePlugin path content) s))
  end.

Fixpoint download_items (items : job) : M unit :=
  match items with
  | [] => mret tt
  | (url, file) :: rest =>
      response ← requests_get url;
      (if ok response
       then write_plugin (plugin_path (str_files file)) (content response);;
            incr_downloaded
       else logging ERROR (msg_download_failed file));;
      download_items rest
  end.

Definition download (data : option job) : M unit :=
  match data with
  | None => mret tt
  | Some items => download_items items
  end.

Definition _handle_spigot (url : string) (file : files) : M (option job) :=
  let resource := resource_of url in
  response ← requests_get (spiget_latest resource);
  if ok response then
    data ← response_json response;
    version ← lift (expect KeyError (md_id data));
    match file with
    | FDict _ => raise TypeError      (* a dict is not hashable *)
    | FStr name =>
        recorded ← get name;
        if decide (recorded = Some version) then mret None
        else
          set name version;;
          incr_updated;;
          mret (Some [(spiget_download resource version, file)])
    end
  else
    logging ERROR (msg_no_data url);;
    mret None.

(** The loop shared by the Jenkins and GitHub handlers: [direct_url i] is
    the URL expression of the loop body, [version] the build or release. *)
Fixpoint resolve_items (direct_url : Z -> lookup_result string) (version : Z)
    (items : list (Z * string)) (result : job) : M job :=
  match items with
  | [] => mret result
  | (i, file) :: rest =>
      url ← lift (direct_url i);
      set file version;;
      incr_updated;;
      resolve_items direct_url version rest (dict_set url (FStr file) result)
  end.

(** [files.items()] *)
Definition items_of (f : files) : M (list (Z * string)) :=
  match f with
  | FDict d => mret d
  | FStr _ => raise AttributeError
  end.

Definition resolve_changed (direct_url : Z -> lookup_result string) (version : Z) (f : files)
    : M (option job) :=
  first ← first_file f;
  recorded ← get first;
  if decide (recorded = Some version) then mret None
  else
    items ← items_of f;
    result ← resolve_items direct_url version items [];
    mret (Some result).

Definition _handle_jenkins (url : string) (f : files) : M (option job) :=
  response ← requests_get (jenkins_api url);
  if ok response then
    data ← response_json response;
    build ← lift (expect KeyError (md_number data));
    resolve_changed (jenkins_url url data) build f
  else
    logging ERROR (msg_no_data url);;
    mret None.

Definition _handle_github (url : string) (f : files) : M (option job) :=
  response ← requests_get (github_api url);
  if ok response then
    data ← response_json response;
    release ← lift (expect KeyError (md_id data));
    resolve_changed (github_url data) release f
  else
    logging ERROR (msg_no_data url);;
    mret None.

(** *** Dispatch *)

Definition resolve (v : variant) (url : string) (f : files) : M (option job) :=
  match v with
  | Marketplace => _handle_spigot url f
  | ContinuousIntegration => _handle_jenkins url f
  | SourceForge => _handle_github url f
  | Direct => mret (Some [(url, f)])
  end.

(** The body of the loop of [run], after the type check. *)
Definition run_entry (url : string) (f : files) : M unit :=
  add_total (file_count f);;
  domain ← lift (expect IndexError (domain_of url));
  data ← resolve (classify domain) url f;
  download data.

Fixpoint run_loop (plugins : catalog) : M loop_end :=
  match plugins with
  | [] => mret Exhausted
  | (KeyStr url, Files f) :: rest => run_entry url f;; run_loop rest
  | _ :: _ => mret Returned
  end.

(** After the loop: the summary, unless the type check returned. *)
Definition summarize (e : loop_end) : M unit :=
  match e with
  | Returned => mret tt
  | Exhausted =>
      s ← gets id;
      logging INFO (msg_finished (updated s) (downloaded s) (total s))
  end.

Definition run (plugins : catalog) : M unit :=
  logging INFO msg_running;;
  match plugins with
  | [] => logging CRITICAL msg_no_plugins
  | _ :: _ =>
      e ← run_loop plugins;
      summarize e
  end.

(** [run_logging()]: opening the log file is what can fail in it. *)
Definition run_logging : M unit :=
  match log_setup h with
  | None => mret tt
  | Some e => raise e
  end.

Definition main (plugins : catalog) : M unit :=
  run_logging;;
  PluginUpdater__init__;;
  run plugins.

(** The [__main__] block: exit status and final state.  The ledger object,
    when [main] got as far as making it, is reclaimed last on every
    path. *)
Definition script (plugins : catalog) (w : world) : Z * state :=
  match main plugins (initial w) with
  | Ok _ s => (0%Z, reclaim s)
  | Raise KeyboardInterrupt s => (1%Z, reclaim s)
  | Raise e s => (0%Z, reclaim (emit (EvLogException e) s))
  end.

End Updater.

(** ** Statements and examples *)

(** From here on [++] joins lists. *)
Open Scope list_scope.

(** The same outcome in another state. *)
Definition on_state {A : Type} (f : state -> state) (r : result A) : result A :=
  match r with
  | Ok a s => Ok a (f s)
  | Raise e s => Raise e (f s)
  end.

(** A computation keeps an observation [f] of the state when [f] reads the
    same before and after, however the computation ends. *)
Definition keeps {X A : Type} (f : state -> X) (m : M A) : Prop :=
  forall s, f (final (m s)) = f s.

Definition is_ledger_event (e : event) : bool :=
  match e with
  | EvReadVersions | EvWriteVersions _ => true
  | _ => false
  end.

(** An observation that reads neither the downloaded counter, the plugin
    directory, the ledger file, the request count nor a request, log or
    plugin-write event: what [download] changes. *)
Definition fetch_blind {X : Type} (f : state -> X) : Prop :=
  (forall d s, f (set_counters (updated s) d (total s) s) = f s)
  /\ (forall d s, f (set_plugin_dir d s) = f s)
  /\ (forall v s, f (set_version_file v s) = f s)
  /\ (forall s, f (count_request s) = f s)
  /\ (forall e s, is_ledger_event e = false -> f (emit e s) = f s).

(** An observation that reads no counter. *)
Definition counter_blind {X : Type} (f : state -> X) : Prop :=
  forall u d t s, f (set_counters u d t s) = f s.

(** An observation that does not read the ledger entry of [key]. *)
Definition set_blind {X : Type} (f : state -> X) (key : string) : Prop :=
  forall v s, f (set_data (<[key := v]> (data s)) s) = f s.

(** The reads and writes of [plugin_versions.json] in a trace, in order. *)
Definition ledger_io (tr : list event) : list event := List.filter is_ledger_event tr.

Definition is_request (e : event) : bool :=
  match e with
  | EvGet _ => true
  | _ => false
  end.

(** The state once the loop of a handler has recorded [v] for each of
    [files] in turn. *)
Fixpoint recorded_all (v : Z) (files : list string) (s : state) : state :=
  match files with
  | [] => s
  | name :: rest => recorded_all v rest (recorded name v s)
  end.

(** The job once [result[url] = file] has run for each pair in turn. *)
Definition add_all (entries : list (string * string)) (result : job) : job :=
  fold_left (fun r e => dict_set (fst e) (FStr (snd e)) r) entries result.

Definition has_url (u : string) (e : string * files) : bool := String.eqb (fst e) u.

(** The file names a catalog value holds. *)
Definition names (f : files) : list string :=
  match f with
  | FStr name => [name]
  | FDict d => map snd d
  end.

Definition entry_names (e : catalog_key * catalog_value) : list string :=
  match e with
  | (_, Files f) => names f
  | (_, ValueOther) => []
  end.

(** What [plugin_versions.json] holds for the run: its content when it is
    there and decodes, nothing otherwise. *)
Definition stored (w : world) : gmap string Z :=
  match w_version_file w with
  | Some (ValidJson m) => m
  | _ => ∅
  end.

(** What the constructor does to [plugin_versions.json]: it reads the file
    when it exists and creates it otherwise. *)
Definition load_events (w : world) : list event :=
  match w_version_file w with
  | Some _ => [EvReadVersions]
  | None => [EvWriteVersions ∅]
  end.

Definition mkdir_events (w : world) : list event :=
  match w_plugin_dir w with
  | Some _ => []
  | None => [EvMakeDirs]
  end.

(** A catalog entry the type check of [run] refuses. *)
Definition malformed (e : catalog_key * catalog_value) : Prop :=
  fst e = KeyOther \/ snd e = ValueOther.

Definition is_write (e : event) : bool :=
  match e with
  | EvWriteVersions _ => true
  | _ => false
  end.

(** How often a run wrote [plugin_versions.json]. *)
Definition writes (tr : list event) : nat := length (List.filter is_write tr).

(** The claims of the specification that the script does not meet, as
    worded there. *)
Module Claimed.


(** A malformed entry makes the process exit with a non-zero status. *)
Definition nonzero_exit (net : network) (h : host) (plugins : catalog) (w : world) : Prop :=
  fst (script net h plugins w) <> 0%Z.

(** With an empty catalog the ledger file is not touched, not even
    read, and neither is the destination directory. *)
Definition untouched (net : network) (h : host) (w : world) : Prop :=
  let s := snd (script net h [] w) in
  In (EvLog CRITICAL msg_no_plugins) (trace s)
  /\ downloaded s = 0
  /\ ledger_io (trace s) = []
  /\ ~ In EvMakeDirs (trace s).

(** Loading a ledger file that is not valid JSON fails with [IOError]. *)
Definition load_fails_with_IOError (s : state) : Prop :=
  exists s', VersionFileHandler__init__ s = Raise OSError s'.

(** The ledger is written to disk exactly once per run. *)
Definition flushed_once (net : network) (h : host) (plugins : catalog) (w : world) : Prop :=
  writes (trace (snd (script net h plugins w))) = 1.

End Claimed.

(** The first label of a host name. *)
Definition first_label (domain : string) : string :=
  hd EmptyString (PyStr.split "." domain).

(** The dispatch rule with the continuous-integration case read as "the
    first label of the host is the token ci". *)
Definition first_label_rule (domain : string) : Prop :=
  (classify domain = Marketplace <-> PyStr.contains "spigotmc.org" domain = true)
  /\ (classify domain = ContinuousIntegration <-> first_label domain = "ci")
  /\ (classify domain = SourceForge <-> PyStr.contains "github.com" domain = true)
  /\ (classify domain = Direct <->
       PyStr.contains "spigotmc.org" domain = false
       /\ first_label domain <> "ci"
       /\ PyStr.contains "github.com" domain = false).

Module Examples.

Definition luckperms : string := "https://www.spigotmc.org/resources/luckperms.28140".

(** Spiget answers with version [v]; every download succeeds. *)
Definition spiget (v : Z) : network := fun _ url =>
  if String.eqb url (spiget_latest "28140")
  then Reply (Response true (Some (Metadata (Some v) None None None)) "")
  else Reply (Response true None "jar").

Definition ledger_1000 : gmap string Z := <["LuckPerms.jar" := 1000%Z]> ∅.

(** The state of a run that has loaded [ledger_1000]. *)
Definition loaded : state :=
  State ledger_1000 0 0 0 true (Some (ValidJson ledger_1000)) (Some ∅) 0 [].

Definition worldguard : string := "https://dev.bukkit.org/projects/worldguard/files/latest".

(** Every request fails with a non-success status. *)
Definition unavailable : network := fun _ _ => Reply (Response false None "").

(** A first run: neither the ledger file nor the directory exists. *)
Definition fresh : world := World None None.

(** A later run: the ledger file holds [ledger_1000]. *)
Definition installed : world := World (Some (ValidJson ledger_1000)) (Some ∅).

(** The ledger file is damaged. *)
Definition damaged : world := World (Some NotJson) (Some ∅).


Definition two_plugins : catalog :=
  [(KeyStr luckperms, Files (FStr "LuckPerms.jar"));
   (KeyStr worldguard, Files (FStr "WorldGuard.jar"))].

Definition jenkins : string := "https://ci.example.org/job/Plugin".

Definition two_files : list (Z * string) := [(0%Z, "A.jar"); (1%Z, "B.jar")].


(** A catalog whose second entry has a list where a file name or a dict
    belongs. *)
Definition broken_catalog : catalog :=
  [(KeyStr worldguard, Files (FStr "WorldGuard.jar"));
   (KeyStr luckperms, ValueOther);
   (KeyStr jenkins, Files (FDict two_files))].

(** Build 42 with two artifacts; every download succeeds. *)
Definition build_42 : network := fun _ url =>
  if String.eqb url (jenkins_api jenkins)
  then Reply (Response true
                (Some (Metadata None (Some 42%Z)
                         (Some [Some "out/A.jar"; Some "out/B.jar"]) None)) "")
  else Reply (Response true None "jar").

(** The same server, with a keyboard interrupt during the third request
    of the run. *)
Definition interrupted : network := fun n url =>
  if (n =? 2)%nat then NetRaise KeyboardInterrupt else build_42 n url.

(** The state of a first run after the constructor. *)
Definition started : state :=
  State ∅ 0 0 0 true (Some (ValidJson ∅)) (Some ∅) 0 [EvWriteVersions ∅; EvMakeDirs].

Definition github : string := "https://github.com/NEZNAMY/TAB".

(** Release 7 with one asset. *)
Definition release_7 : network := fun _ url =>
  if String.eqb url (github_api github)
  then Reply (Response true
                (Some (Metadata (Some 7%Z) None None (Some [Some "https://dl/TAB.jar"]))) "")
  else Reply (Response true None "jar").

(** Where the walk along a path stands. *)
Inductive directory := WorkingDir | PluginDir.

(** The walk of [rooted] along the components of a path: the working
    directory is the root of the file system, so two dots lead to it from
    anywhere, and it holds the plugin directory, the ledger and the log
    and nothing else; the plugin directory holds regular files only.  A
    name of more than 255 characters is refused. *)
Fixpoint walk (at_dir : directory) (components : list string) : option place :=
  match components with
  | [] => None
  | [name] =>
      if String.eqb name "" || String.eqb name "." || String.eqb name ".."
         || (255 <? String.length name)%nat
      then None
      else match at_dir with
           | PluginDir => Some (InPlugins name)
           | WorkingDir =>
               if String.eqb name PLUGIN_DIR then None
               else if String.eqb name VERSION_FILE then Some OnLedger
               else Some Elsewhere
           end
  | name :: rest =>
      if String.eqb name "" || String.eqb name "." then walk at_dir rest
      else if String.eqb name ".." then walk WorkingDir rest
      else match at_dir with
           | WorkingDir => if String.eqb name PLUGIN_DIR then walk PluginDir rest else None
           | PluginDir => None
           end
  end.

(** A host of that layout whose log file opens.  The bodies the examples
    serve are archives, which do not decode as a ledger. *)
Definition rooted : host :=
  Host (fun path => walk WorkingDir (PyStr.split "/" path)) (fun _ => NotJson) None.

(** The same host with a log file that cannot be opened. *)
Definition unwritable_log : host := Host (lands rooted) (decode rooted) (Some OSError).

(** The same host, interrupted before the ledger object exists. *)
Definition interrupted_early : host :=
  Host (lands rooted) (decode rooted) (Some KeyboardInterrupt).

(** A host name with an accented capital, E acute, the code point 201;
    its small letter is the code point 233. *)
Definition accented : string := ("CI." ++ String "201"%char "COLE.org")%string.

End Examples.

(** ** Further statements *)

(** The state once [download] has written the body [content] through
    [path], which led to [p], and counted it; [d] is the plugin directory
    before. *)
Definition fetched (h : host) (path content : string) (p : place) (d : gmap string string)
    (s : state) : state :=
  set_counters (updated s) (S (downloaded s)) (total s)
    (store h p content d (emit (EvWritePlugin path content) s)).

(** A relation [R] between the state before and after, and a set [E] of
    exceptions, closed under the steps the handlers and [download] take:
    a log line, a request, a fetched file, a recorded version; [E] holds of
    what the network raises and of every exception of the script's own. *)
Record closed (net : network) (h : host) (R : state -> state -> Prop) (E : exn -> Prop)
    : Prop := {
  closed_refl : forall s, R s s;
  closed_trans : forall s1 s2 s3, R s1 s2 -> R s2 s3 -> R s1 s3;
  closed_log : forall l msg s, R s (emit (EvLog l msg) s);
  closed_sent : forall url s, R s (sent url s);
  closed_fetched : forall path content p d s,
      open_wb h path = inr p -> plugin_dir s = Some d ->
      R s (fetched h path content p d s);
  closed_recorded : forall key v s, R s (recorded key v s);
  closed_net : forall n url e, net n url = NetRaise e -> E e;
  closed_exn : forall e, e <> KeyboardInterrupt -> E e
}.

(** A computation carries [R] and [E]: the state it ends in is related to
    the one it started in, and an exception it raises is in [E]. *)
Definition carries {A : Type} (R : state -> state -> Prop) (E : exn -> Prop) (m : M A) : Prop :=
  forall s, match m s with
            | Ok _ s' => R s s'
            | Raise e s' => R s s' /\ E e
            end.

(** The events [run] produces: requests, log lines, and bodies written
    through the paths of downloads. *)
Definition is_run_event (e : event) : bool :=
  match e with
  | EvGet _ | EvLog _ _ | EvWritePlugin _ _ => true
  | _ => false
  end.

Definition is_plugin_write (e : event) : bool :=
  match e with
  | EvWritePlugin _ _ => true
  | _ => false
  end.

(** A body written through a path that leads to the ledger file. *)
Definition hits_ledger (h : host) (e : event) : bool :=
  match e with
  | EvWritePlugin path _ =>
      match open_wb h path with
      | inr OnLedger => true
      | _ => false
      end
  | _ => false
  end.

(** [s'] extends [s]: no counter has gone down, no ledger record and no
    plugin file is gone, the trace has grown by events of [run] that
    account for the requests and downloads counted since, and the ledger
    file is as it was unless one of those events wrote onto it. *)
Definition extends (h : host) (s s' : state) : Prop :=
  updated s <= updated s'
  /\ total s <= total s'
  /\ dom (data s) ⊆ dom (data s')
  /\ (forall d, plugin_dir s = Some d ->
                exists d', plugin_dir s' = Some d' /\ dom d ⊆ dom d')
  /\ exists evs,
       trace s' = trace s ++ evs
       /\ List.forallb is_run_event evs = true
       /\ requests_made s' = requests_made s + length (List.filter is_request evs)
       /\ downloaded s' = downloaded s + length (List.filter is_plugin_write evs)
       /\ (List.forallb (fun e => negb (hits_ledger h e)) evs = true ->
           version_file s' = version_file s).

(** [sum(len(files) if type(files) == dict else 1)] over a catalog. *)
Fixpoint total_files (plugins : catalog) : nat :=
  match plugins with
  | [] => 0
  | (_, Files f) :: rest => file_count f + total_files rest
  | (_, ValueOther) :: rest => total_files rest
  end.

(** The metadata URL a tracking variant queries. *)
Definition metadata_url (v : variant) (url : string) : string :=
  match v with
  | Marketplace => spiget_latest (resource_of url)
  | ContinuousIntegration => jenkins_api url
  | SourceForge => github_api url
  | Direct => url
  end.

(** The field of the metadata a tracking variant takes the version from. *)
Definition version_of (v : variant) (d : metadata) : option Z :=
  match v with
  | ContinuousIntegration => md_number d
  | _ => md_id d
  end.

(** How many of the requests of a job, sent from request number [n] on,
    are answered with a success status. *)
Fixpoint oks (net : network) (n : nat) (items : job) : nat :=
  match items with
  | [] => 0
  | (url, _) :: rest =>
      match net n url with
      | Reply r => if ok r then 1 else 0
      | NetRaise _ => 0
      end + oks net (S n) rest
  end.


(** The disk a run leaves behind. *)
Definition world_after (s : state) : world := World (version_file s) (plugin_dir s).

(** How often the character [c] occurs in [s]. *)
Fixpoint occurrences (c : ascii) (s : string) : nat :=
  match s with
  | EmptyString => 0
  | String a t => (if Ascii.eqb a c then 1 else 0) + occurrences c t
  end.

(** ** Properties *)

Ltac run_m :=
  unfold mbind, M_bind, mret, M_ret, raise, gets, modify, lift, expect; simpl.

Section Properties.

Variable net : network.
Variable h : host.

(** *** Marketplace resolution *)

(** C1.  When the version lookup of a marketplace entry succeeds with
    version [v]: if the ledger records [v] for the destination file, the
    resolver returns nothing, the ledger and the counter are as before and
    downloading the result does nothing; otherwise the resolver records
    [v], adds one to the updated counter and returns the one-entry job
    from the versioned download URL to the destination file. *)
Theorem handle_spigot_postcondition
    (url name : string) (s : state) (r : response) (d : metadata) (v : Z) :
  net (requests_made s) (spiget_latest (resource_of url)) = Reply r ->
  ok r = true -> json r = Some d -> md_id d = Some v ->
  let s1 := sent (spiget_latest (resource_of url)) s in
  (data s !! name = Some v ->
     _handle_spigot net url (FStr name) s = Ok None s1
     /\ download net h None s1 = Ok tt s1
     /\ data s1 = data s /\ updated s1 = updated s
     /\ downloaded s1 = downloaded s /\ plugin_dir s1 = plugin_dir s)
  /\ (data s !! name <> Some v ->
     _handle_spigot net url (FStr name) s
       = Ok (Some [(spiget_download (resource_of url) v, FStr name)]) (recorded name v s1)
     /\ data (recorded name v s1) = <[name := v]> (data s)
     /\ updated (recorded name v s1) = S (updated s)).
Proof.
  intros Hnet Hok Hjson Hid s1.
  unfold _handle_spigot, requests_get, response_json, get, set, incr_updated.
  run_m. rewrite Hnet, Hok, Hjson. simpl. rewrite Hid. simpl.
  split; intros Hcmp.
  - destruct (decide (data s !! name = Some v)) as [_ | Hne]; [ | contradiction ].
    repeat split; reflexivity.
  - destruct (decide (data s !! name = Some v)) as [He | _]; [ contradiction | ].
    repeat split; reflexivity.
Qed.

(** *** Dispatch *)

Lemma classify_cases (domain : string) :
  (classify domain = Marketplace <-> PyStr.contains "spigotmc.org" domain = true)
  /\ (classify domain = ContinuousIntegration <->
      PyStr.contains "spigotmc.org" domain = false
      /\ PyStr.contains "ci." domain = true)
  /\ (classify domain = SourceForge <->
      PyStr.contains "spigotmc.org" domain = false
      /\ PyStr.contains "ci." domain = false
      /\ PyStr.contains "github.com" domain = true)
  /\ (classify domain = Direct <->
      PyStr.contains "spigotmc.org" domain = false
      /\ PyStr.contains "ci." domain = false
      /\ PyStr.contains "github.com" domain = false).
Proof.
  unfold classify.
  destruct (PyStr.contains "spigotmc.org" domain);
    destruct (PyStr.contains "ci." domain);
    destruct (PyStr.contains "github.com" domain);
    repeat split; intros; try discriminate; try tauto;
    repeat match goal with H : _ /\ _ |- _ => destruct H end; discriminate.
Qed.

(** C3, amended.  The variant of an entry is decided by substring tests on
    the third slash-separated segment of the lowercased URL, in this order:
    Marketplace when it contains spigotmc.org; otherwise
    ContinuousIntegration when it contains ci. anywhere; otherwise
    SourceForge when it contains github.com; otherwise Direct.  The entry
    is resolved by that variant and the result downloaded; a URL with
    fewer than three segments raises an index error. *)
Theorem dispatch_by_substring (url : string) (f : files) (s : state) :
  run_entry net h url f s =
    match domain_of url with
    | Some domain =>
        (data ← resolve net (classify domain) url f; download net h data)
          (tallied (file_count f) s)
    | None => Raise IndexError (tallied (file_count f) s)
    end
  /\ forall domain,
      (classify domain = Marketplace <-> PyStr.contains "spigotmc.org" domain = true)
      /\ (classify domain = ContinuousIntegration <->
          PyStr.contains "spigotmc.org" domain = false
          /\ PyStr.contains "ci." domain = true)
      /\ (classify domain = SourceForge <->
          PyStr.contains "spigotmc.org" domain = false
          /\ PyStr.contains "ci." domain = false
          /\ PyStr.contains "github.com" domain = true)
      /\ (classify domain = Direct <->
          PyStr.contains "spigotmc.org" domain = false
          /\ PyStr.contains "ci." domain = false
          /\ PyStr.contains "github.com" domain = false).
Proof.
  split; [ | apply classify_cases ].
  unfold run_entry, add_total. run_m.
  destruct (domain_of url); reflexivity.
Qed.

(** *** Observations a computation leaves alone *)

Lemma keeps_bind {X A B : Type} (f : state -> X) (m : M A) (k : A -> M B) :
  keeps f m -> (forall a, keeps f (k a)) -> keeps f (m ≫= k).
Proof.
  intros Hm Hk s. unfold mbind, M_bind.
  specialize (Hm s). destruct (m s) as [a s' | e s']; simpl in *.
  - rewrite Hk. exact Hm.
  - exact Hm.
Qed.

Lemma keeps_ret {X A : Type} (f : state -> X) (a : A) : keeps f (mret a : M A).
Proof. intros s. reflexivity. Qed.

Lemma keeps_lift {X A : Type} (f : state -> X) (r : lookup_result A) : keeps f (lift r).
Proof. intros s. destruct r; reflexivity. Qed.

Lemma keeps_modify {X : Type} (f : state -> X) (g : state -> state) :
  (forall s, f (g s) = f s) -> keeps f (modify g).
Proof. intros H s. apply H. Qed.

Lemma ledger_io_emit (e : event) (s : state) :
  is_ledger_event e = false -> ledger_io (trace (emit e s)) = ledger_io (trace s).
Proof.
  intros He. unfold ledger_io. simpl. rewrite List.filter_app. simpl.
  rewrite He. apply app_nil_r.
Qed.

Lemma fetch_blind_data : fetch_blind data.
Proof. repeat split. Qed.

Lemma fetch_blind_updated : fetch_blind updated.
Proof. repeat split. Qed.


Lemma fetch_blind_handler : fetch_blind handler.
Proof. repeat split. Qed.

Lemma fetch_blind_ledger_io : fetch_blind (fun s => ledger_io (trace s)).
Proof.
  repeat split; intros. apply ledger_io_emit. assumption.
Qed.

Section Blind.

Context {X : Type} (f : state -> X) (Hf : fetch_blind f).

Lemma keeps_logging (l : level) (msg : string) : keeps f (logging l msg).
Proof. intros s. apply Hf. reflexivity. Qed.

Lemma keeps_requests_get (url : string) : keeps f (requests_get net url).
Proof.
  intros s. unfold requests_get, sent.
  destruct Hf as (_ & _ & _ & Hc & He).
  destruct (net (requests_made s) url); simpl; rewrite Hc, He; reflexivity.
Qed.

Lemma keeps_write_plugin (path body : string) : keeps f (write_plugin h path body).
Proof.
  intros s. unfold write_plugin.
  destruct Hf as (_ & Hd & Hv & _ & He).
  destruct (open_wb h path) as [e | p]; [ reflexivity | ].
  destruct (plugin_dir s) as [d | ]; [ | reflexivity ].
  destruct p; simpl; rewrite ?Hd, ?Hv, He; reflexivity.
Qed.

Lemma keeps_incr_downloaded : keeps f incr_downloaded.
Proof. apply keeps_modify. intros s. apply Hf. Qed.

Lemma keeps_download_items (items : job) : keeps f (download_items net h items).
Proof.
  induction items as [ | [url file] rest IH ]; simpl.
  - apply keeps_ret.
  - apply keeps_bind; [ apply keeps_requests_get | intros r ].
    apply keeps_bind; [ | intros _; exact IH ].
    destruct (ok r).
    + apply keeps_bind; [ apply keeps_write_plugin | intros _; apply keeps_incr_downloaded ].
    + apply keeps_logging.
Qed.

Lemma keeps_download (j : option job) : keeps f (download net h j).
Proof.
  destruct j; simpl; [ apply keeps_download_items | apply keeps_ret ].
Qed.

(** What the rest of [run] changes besides: the other counters, and the
    ledger entries of the files the catalog names. *)
Hypothesis Hc : counter_blind f.

Lemma keeps_incr_updated : keeps f incr_updated.
Proof. apply keeps_modify. intros s. apply Hc. Qed.

Lemma keeps_add_total (n : nat) : keeps f (add_total n).
Proof. apply keeps_modify. intros s. apply Hc. Qed.

Lemma keeps_get (key : string) : keeps f (get key).
Proof. intros s. reflexivity. Qed.

Lemma keeps_set (key : string) (v : Z) : set_blind f key -> keeps f (set key v).
Proof. intros Hk. apply keeps_modify. intros s. apply Hk. Qed.

Lemma keeps_handle_spigot (url : string) (fl : files) :
  (forall key, In key (names fl) -> set_blind f key) ->
  keeps f (_handle_spigot net url fl).
Proof.
  intros Hk. unfold _handle_spigot.
  apply keeps_bind; [ apply keeps_requests_get | intros r ].
  destruct (ok r).
  - apply keeps_bind; [ apply keeps_lift | intros d ].
    apply keeps_bind; [ apply keeps_lift | intros v ].
    destruct fl as [name | items]; [ | intros s; reflexivity ].
    apply keeps_bind; [ apply keeps_get | intros o ].
    destruct (decide (o = Some v)); [ apply keeps_ret | ].
    apply keeps_bind; [ apply keeps_set, Hk; simpl; tauto | intros _ ].
    apply keeps_bind; [ apply keeps_incr_updated | intros _; apply keeps_ret ].
  - apply keeps_bind; [ apply keeps_logging | intros _; apply keeps_ret ].
Qed.

Lemma keeps_resolve_items (direct_url : Z -> lookup_result string) (v : Z)
    (items : list (Z * string)) :
  (forall key, In key (map snd items) -> set_blind f key) ->
  forall result, keeps f (resolve_items direct_url v items result).
Proof.
  induction items as [ | [i file] rest IH ]; intros Hk result; simpl.
  - apply keeps_ret.
  - apply keeps_bind; [ apply keeps_lift | intros u ].
    apply keeps_bind; [ apply keeps_set, Hk; simpl; tauto | intros _ ].
    apply keeps_bind; [ apply keeps_incr_updated | intros _ ].
    apply IH. intros key Hin. apply Hk. simpl. tauto.
Qed.

Lemma keeps_resolve_changed (direct_url : Z -> lookup_result string) (v : Z) (fl : files) :
  (forall key, In key (names fl) -> set_blind f key) ->
  keeps f (resolve_changed direct_url v fl).
Proof.
  intros Hk.
  destruct fl as [[ | c t] | [ | [i x] r]]; try (intros s; reflexivity).
  (* a dict with a first item: the strings and the empty dict have raised *)
  change (resolve_changed direct_url v (FDict ((i, x) :: r)))
    with (recorded ← get x;
          if decide (recorded = Some v) then mret None
          else result ← resolve_items direct_url v ((i, x) :: r) [];
               mret (Some result)).
  apply keeps_bind; [ apply keeps_get | intros o ].
  destruct (decide (o = Some v)); [ apply keeps_ret | ].
  apply keeps_bind; [ apply keeps_resolve_items, Hk | intros res; apply keeps_ret ].
Qed.

Lemma keeps_handle_jenkins (url : string) (fl : files) :
  (forall key, In key (names fl) -> set_blind f key) ->
  keeps f (_handle_jenkins net url fl).
Proof.
  intros Hk. unfold _handle_jenkins.
  apply keeps_bind; [ apply keeps_requests_get | intros r ].
  destruct (ok r).
  - apply keeps_bind; [ apply keeps_lift | intros d ].
    apply keeps_bind; [ apply keeps_lift | intros v ].
    apply keeps_resolve_changed, Hk.
  - apply keeps_bind; [ apply keeps_logging | intros _; apply keeps_ret ].
Qed.

Lemma keeps_handle_github (url : string) (fl : files) :
  (forall key, In key (names fl) -> set_blind f key) ->
  keeps f (_handle_github net url fl).
Proof.
  intros Hk. unfold _handle_github.
  apply keeps_bind; [ apply keeps_requests_get | intros r ].
  destruct (ok r).
  - apply keeps_bind; [ apply keeps_lift | intros d ].
    apply keeps_bind; [ apply keeps_lift | intros v ].
    apply keeps_resolve_changed, Hk.
  - apply keeps_bind; [ apply keeps_logging | intros _; apply keeps_ret ].
Qed.

Lemma keeps_resolve (v : variant) (url : string) (fl : files) :
  (forall key, In key (names fl) -> set_blind f key) ->
  keeps f (resolve net v url fl).
Proof.
  intros Hk. destruct v; simpl.
  - apply keeps_handle_spigot, Hk.
  - apply keeps_handle_jenkins, Hk.
  - apply keeps_handle_github, Hk.
  - apply keeps_ret.
Qed.

Lemma keeps_run_entry (url : string) (fl : files) :
  (forall key, In key (names fl) -> set_blind f key) ->
  keeps f (run_entry net h url fl).
Proof.
  intros Hk. unfold run_entry.
  apply keeps_bind; [ apply keeps_add_total | intros _ ].
  apply keeps_bind; [ apply keeps_lift | intros domain ].
  apply keeps_bind; [ apply keeps_resolve, Hk | intros j ].
  apply keeps_download.
Qed.

Lemma keeps_run_loop (plugins : catalog) :
  (forall key, In key (concat (map entry_names plugins)) -> set_blind f key) ->
  keeps f (run_loop net h plugins).
Proof.
  induction plugins as [ | [k v] rest IH ]; intros Hk; simpl.
  - apply keeps_ret.
  - destruct k as [url | ], v as [fl | ]; try apply keeps_ret.
    apply keeps_bind; [ | intros _ ].
    + apply keeps_run_entry. intros key Hin. apply Hk.
      simpl. apply in_or_app. left. exact Hin.
    + apply IH. intros key Hin. apply Hk.
      simpl. apply in_or_app. right. exact Hin.
Qed.

Lemma keeps_summarize (e : loop_end) : keeps f (summarize e).
Proof.
  destruct e; simpl; [ | apply keeps_ret ].
  apply keeps_bind; [ intros s; reflexivity | intros s; apply keeps_logging ].
Qed.

Lemma keeps_run (plugins : catalog) :
  (forall key, In key (concat (map entry_names plugins)) -> set_blind f key) ->
  keeps f (run net h plugins).
Proof.
  intros Hk. unfold run.
  apply keeps_bind; [ apply keeps_logging | intros _ ].
  destruct plugins as [ | e rest ]; [ apply keeps_logging | ].
  apply keeps_bind; [ apply keeps_run_loop, Hk | apply keeps_summarize ].
Qed.

End Blind.

(** *** The direct variant *)

(** C8.  An entry dispatched to the direct variant is downloaded through
    the single job made of its URL and its catalog value as they stand:
    one request, to that URL, whatever the ledger holds.  The ledger is
    neither consulted nor changed: the ledger object is as before, it
    neither reads nor writes its file, and the outcome is the same under
    any other ledger content.  The file on disk is as before too, unless
    the file name of the entry leads the download itself onto it. *)
Theorem direct_entry_unconditional (url domain : string) (f : files) (s : state) :
  domain_of url = Some domain ->
  classify domain = Direct ->
  resolve net Direct url f = mret (Some [(url, f)])
  /\ run_entry net h url f s = download net h (Some [(url, f)]) (tallied (file_count f) s)
  /\ (exists evs,
        trace (final (run_entry net h url f s)) = trace s ++ EvGet url :: evs
        /\ Forall (fun e => is_request e = false /\ is_ledger_event e = false) evs)
  /\ data (final (run_entry net h url f s)) = data s
  /\ updated (final (run_entry net h url f s)) = updated s
  /\ (open_wb h (plugin_path (str_files f)) <> inr OnLedger ->
      version_file (final (run_entry net h url f s)) = version_file s)
  /\ forall m, run_entry net h url f (set_data m s)
               = on_state (set_data m) (run_entry net h url f s).
Proof.
  intros Hdom Hcls.
  assert (Hrun : forall s0, run_entry net h url f s0
                 = download net h (Some [(url, f)]) (tallied (file_count f) s0)).
  { intros s0. unfold run_entry, add_total. run_m. rewrite Hdom. simpl.
    rewrite Hcls. reflexivity. }
  split; [ reflexivity | ]. split; [ apply Hrun | ].
  split; [ | split; [ | split; [ | split ] ] ].
  - rewrite Hrun. simpl. unfold requests_get, write_plugin, incr_downloaded, logging.
    run_m. destruct (net (requests_made s) url) as [r | e]; simpl.
    + destruct (ok r); simpl.
      * destruct (open_wb h (plugin_path (str_files f))) as [e | p]; simpl;
          [ eexists; split; [ reflexivity | constructor ] | ].
        destruct (plugin_dir s); simpl;
          [ | eexists; split; [ reflexivity | constructor ] ].
        destruct p; simpl; eexists; rewrite <- app_assoc; simpl;
          (split; [ reflexivity | repeat constructor ]).
      * eexists. rewrite <- app_assoc. simpl. split; [ reflexivity | ].
        repeat constructor.
    + eexists. split; [ reflexivity | constructor ].
  - rewrite Hrun. rewrite (keeps_download data fetch_blind_data). reflexivity.
  - rewrite Hrun. rewrite (keeps_download updated fetch_blind_updated). reflexivity.
  - intros Hplace. rewrite Hrun. simpl.
    unfold requests_get, write_plugin, incr_downloaded, logging. run_m.
    destruct (net (requests_made s) url) as [r | e]; simpl; [ | reflexivity ].
    destruct (ok r); simpl; [ | reflexivity ].
    destruct (open_wb h (plugin_path (str_files f))) as [e | p]; simpl; [ reflexivity | ].
    destruct (plugin_dir s); simpl; [ | reflexivity ].
    destruct p; simpl; try reflexivity. contradiction.
  - intros m. rewrite !Hrun. simpl.
    unfold requests_get, write_plugin, incr_downloaded, logging. run_m.
    destruct (net (requests_made s) url) as [r | e]; simpl; [ | reflexivity ].
    destruct (ok r); simpl; [ | reflexivity ].
    destruct (open_wb h (plugin_path (str_files f))) as [e | p]; simpl; [ reflexivity | ].
    destruct (plugin_dir s); simpl; [ | reflexivity ].
    destruct p; reflexivity.
Qed.

(** *** The run as a whole *)

Lemma run_loop_app (pre post : catalog) (s : state) :
  run_loop net h (pre ++ post) s =
    match run_loop net h pre s with
    | Ok Exhausted s' => run_loop net h post s'
    | r => r
    end.
Proof.
  revert s. induction pre as [ | [k v] pre IH ]; intros s; simpl.
  - reflexivity.
  - destruct k as [url | ], v as [f | ]; try reflexivity.
    unfold mbind, M_bind.
    destruct (run_entry net h url f s) as [[] s' | e s']; [ apply IH | reflexivity ].
Qed.

Lemma run_loop_malformed (e : catalog_key * catalog_value) (post : catalog) (s : state) :
  malformed e -> run_loop net h (e :: post) s = Ok Returned s.
Proof.
  destruct e as [[url | ] [f | ]]; intros [H | H]; simpl in H; try discriminate; reflexivity.
Qed.

(** *** The ledger object from the constructor on *)

Lemma counter_blind_handler : counter_blind handler.
Proof. intros u d t s. reflexivity. Qed.

Lemma set_blind_handler (key : string) : set_blind handler key.
Proof. intros v s. reflexivity. Qed.

(** The constructor makes the ledger object, however it ends. *)
Lemma init_handler (s : state) : handler (final (PluginUpdater__init__ s)) = true.
Proof.
  unfold PluginUpdater__init__, VersionFileHandler__init__, _handle_file, read, write,
    _handle_dirs.
  run_m. destruct (version_file s) as [[m | ] | ]; simpl; try reflexivity;
    destruct (plugin_dir s); reflexivity.
Qed.

Lemma run_loop_handler (plugins : catalog) (s : state) :
  handler (final (run_loop net h plugins s)) = handler s.
Proof.
  apply (keeps_run_loop handler fetch_blind_handler counter_blind_handler plugins
           (fun key _ => set_blind_handler key)).
Qed.

Lemma run_handler (plugins : catalog) (s : state) :
  handler (final (run net h plugins s)) = handler s.
Proof.
  apply (keeps_run handler fetch_blind_handler counter_blind_handler plugins
           (fun key _ => set_blind_handler key)).
Qed.

(** [main] once the log file has been opened, and when it cannot be. *)
Lemma main_logged (plugins : catalog) (s : state) :
  log_setup h = None ->
  main net h plugins s = (PluginUpdater__init__;; run net h plugins) s.
Proof. intros Hlog. unfold main, run_logging. rewrite Hlog. reflexivity. Qed.

Lemma main_unlogged (plugins : catalog) (s : state) (e : exn) :
  log_setup h = Some e -> main net h plugins s = Raise e s.
Proof. intros Hlog. unfold main, run_logging. rewrite Hlog. reflexivity. Qed.

(** [main] that got past [run_logging] ends with a ledger object. *)
Lemma main_handler (plugins : catalog) (s : state) :
  log_setup h = None -> handler (final (main net h plugins s)) = true.
Proof.
  intros Hlog. rewrite (main_logged plugins s Hlog). unfold mbind, M_bind.
  pose proof (init_handler s) as Hinit.
  destruct (PluginUpdater__init__ s) as [[] s0 | e s0]; simpl in Hinit; [ | exact Hinit ].
  rewrite run_handler. exact Hinit.
Qed.

(** C4, amended.  A malformed entry stops the loop where it stands: when
    the entries before it have been processed, [run] returns in the state
    they left, so no later entry is dispatched and nothing is logged, not
    even the summary.  The script then ends as after any other return:
    the ledger is written at teardown and the exit status is 0. *)
Theorem malformed_entry_returns
    (pre post : catalog) (e : catalog_key * catalog_value)
    (w : world) (s0 s' : state) :
  malformed e ->
  log_setup h = None ->
  PluginUpdater__init__ (initial w) = Ok tt s0 ->
  run_loop net h pre (emit (EvLog INFO msg_running) s0) = Ok Exhausted s' ->
  run_loop net h (pre ++ e :: post) (emit (EvLog INFO msg_running) s0) = Ok Returned s'
  /\ main net h (pre ++ e :: post) (initial w) = Ok tt s'
  /\ script net h (pre ++ e :: post) w = (0%Z, VersionFileHandler__del__ s').
Proof.
  intros Hbad Hlog Hinit Hpre.
  assert (Hloop : run_loop net h (pre ++ e :: post) (emit (EvLog INFO msg_running) s0)
                  = Ok Returned s').
  { rewrite run_loop_app, Hpre. apply run_loop_malformed, Hbad. }
  assert (Hmain : main net h (pre ++ e :: post) (initial w) = Ok tt s').
  { rewrite (main_logged _ _ Hlog). unfold mbind at 1. unfold M_bind. rewrite Hinit.
    unfold run, logging. run_m.
    destruct (pre ++ e :: post) as [ | x l ] eqn:Hcat.
    - destruct pre; discriminate.
    - rewrite Hloop. reflexivity. }
  split; [ exact Hloop | ]. split; [ exact Hmain | ].
  pose proof (main_handler (pre ++ e :: post) (initial w) Hlog) as Hh.
  rewrite Hmain in Hh. simpl in Hh.
  unfold script. rewrite Hmain. unfold reclaim. rewrite Hh. reflexivity.
Qed.

(** C5, amended.  With an empty catalog, a log file that opens and a
    ledger file that loads, the run logs a critical message, processes no
    entry, sends no request and downloads nothing.  By then the
    constructor has read the ledger file, or created it when it was
    missing, and has created the plugin directory when it was missing; at
    teardown the ledger file is written again with the content that was
    loaded. *)
Theorem empty_catalog_run (w : world) :
  log_setup h = None ->
  w_version_file w <> Some NotJson ->
  script net h [] w =
    (0%Z,
     State (stored w) 0 0 0 true
           (Some (ValidJson (stored w)))
           (Some (default ∅ (w_plugin_dir w)))
           0
           (load_events w ++ mkdir_events w
            ++ [EvLog INFO msg_running; EvLog CRITICAL msg_no_plugins;
                EvWriteVersions (stored w)])).
Proof.
  intros Hlog Hload.
  unfold script. rewrite (main_logged [] (initial w) Hlog).
  destruct w as [[[m | ] | ] [d | ]]; simpl in Hload; try congruence; reflexivity.
Qed.

(** C6, amended.  The constructor of the ledger reads the file when it
    exists and otherwise starts from an empty map and creates the file.
    When the file exists and is not valid JSON, reading it raises a JSON
    decode error, a [ValueError] and not an [IOError]; the error leaves
    [main] before [run] is entered, so no entry is processed, and it is
    logged by the catch-all of the entry point. *)
Theorem ledger_load (plugins : catalog) (w : world) (s : state) :
  (forall m, version_file s = Some (ValidJson m) ->
     VersionFileHandler__init__ s = Ok tt (set_data m (emit EvReadVersions (set_data ∅ s))))
  /\ (version_file s = None ->
     VersionFileHandler__init__ s
       = Ok tt (set_version_file (Some (ValidJson ∅))
                  (emit (EvWriteVersions ∅) (set_data ∅ s))))
  /\ (version_file s = Some NotJson ->
     VersionFileHandler__init__ s
       = Raise JSONDecodeError (emit EvReadVersions (set_data ∅ s)))
  /\ (log_setup h = None -> w_version_file w = Some NotJson ->
     main net h plugins (initial w)
       = Raise JSONDecodeError (emit EvReadVersions (set_handler true (initial w)))
     /\ fst (script net h plugins w) = 0%Z
     /\ In (EvLogException JSONDecodeError) (trace (snd (script net h plugins w)))
     /\ List.filter is_request (trace (snd (script net h plugins w))) = []
     /\ total (snd (script net h plugins w)) = 0).
Proof.
  split; [ | split; [ | split ] ].
  - unfold VersionFileHandler__init__, _handle_file, read, write. run_m.
    intros m H. rewrite H. reflexivity.
  - unfold VersionFileHandler__init__, _handle_file, read, write. run_m.
    intros H. rewrite H. reflexivity.
  - unfold VersionFileHandler__init__, _handle_file, read, write. run_m.
    intros H. rewrite H. reflexivity.
  - intros Hlog H. unfold script. rewrite (main_logged plugins (initial w) Hlog).
    destruct w as [vf d]; simpl in H |- *; subst vf.
    repeat split. simpl. tauto.
Qed.

(** *** Teardown *)

Lemma set_blind_ledger_io (key : string) : set_blind (fun s => ledger_io (trace s)) key.
Proof. intros v s. reflexivity. Qed.

Lemma counter_blind_ledger_io : counter_blind (fun s => ledger_io (trace s)).
Proof. intros u d t s. reflexivity. Qed.

(** Between the constructor and teardown the ledger object neither reads
    nor writes its file. *)
Lemma main_ledger_io (plugins : catalog) (w : world) :
  log_setup h = None ->
  ledger_io (trace (final (main net h plugins (initial w)))) = load_events w.
Proof.
  intros Hlog. rewrite (main_logged plugins (initial w) Hlog).
  unfold mbind at 1. unfold M_bind.
  destruct (PluginUpdater__init__ (initial w)) as [[] s0 | e s0] eqn:Hinit.
  - rewrite (keeps_run (fun s => ledger_io (trace s)) fetch_blind_ledger_io
               counter_blind_ledger_io plugins
               (fun key _ => set_blind_ledger_io key) s0).
    change s0 with (final (Ok tt s0)). rewrite <- Hinit.
    destruct w as [[[m | ] | ] [d | ]]; reflexivity.
  - change s0 with (final (@Raise unit e s0)). rewrite <- Hinit.
    destruct w as [[[m | ] | ] [d | ]]; reflexivity.
Qed.

Lemma writes_ledger_io (tr : list event) : writes tr = writes (ledger_io tr).
Proof.
  unfold writes, ledger_io. induction tr as [ | e tr IH ]; simpl; [ reflexivity | ].
  destruct e; simpl; auto.
Qed.

(** What the [__main__] block adds to the state [main] ended in: the
    logged exception, if it is not an interrupt, and the reclaimed ledger
    object, if there is one. *)
Lemma script_final (plugins : catalog) (w : world) :
  exists s1,
    snd (script net h plugins w) = reclaim s1
    /\ handler s1 = handler (final (main net h plugins (initial w)))
    /\ data s1 = data (final (main net h plugins (initial w)))
    /\ ledger_io (trace s1) = ledger_io (trace (final (main net h plugins (initial w))))
    /\ version_file s1 = version_file (final (main net h plugins (initial w)))
    /\ plugin_dir s1 = plugin_dir (final (main net h plugins (initial w))).
Proof.
  unfold script.
  destruct (main net h plugins (initial w)) as [[] s1 | e s1]; simpl.
  - exists s1. repeat split.
  - destruct e; simpl; eexists; (split; [ reflexivity | ]); repeat split;
      apply ledger_io_emit; reflexivity.
Qed.

(** The ledger file at the end of a script that opened its log holds the
    in-memory ledger [main] ended with. *)
Lemma script_version_file (plugins : catalog) (w : world) :
  log_setup h = None ->
  version_file (snd (script net h plugins w))
  = Some (ValidJson (data (final (main net h plugins (initial w))))).
Proof.
  intros Hlog. destruct (script_final plugins w) as (s1 & -> & Hh & Hd & _).
  rewrite (main_handler plugins (initial w) Hlog) in Hh.
  unfold reclaim. rewrite Hh. simpl. rewrite Hd. reflexivity.
Qed.

(** C7, amended.  Once [main] has opened its log, however it ends
    afterwards (by returning, by an exception or by a keyboard interrupt
    at a request), the destructor writes the ledger exactly once, as the
    last action of the run, and what it writes is the in-memory ledger at
    the point where [main] ended.  Before that the ledger object touches
    its file in the constructor only, which reads it when it exists and
    writes it once to create it when it does not: such a run writes the
    file once when it found it and twice when it had to create it.  When
    [run_logging] raises or is interrupted, [main] ends before there is a
    ledger object: nothing is reclaimed, and the ledger file is neither
    read nor written. *)
Theorem teardown_flush (plugins : catalog) (w : world) :
  let r := main net h plugins (initial w) in
  let s := snd (script net h plugins w) in
  (log_setup h = None ->
     (exists pre, trace s = pre ++ [EvWriteVersions (data (final r))]
                  /\ ledger_io pre = load_events w)
     /\ version_file s = Some (ValidJson (data (final r)))
     /\ ledger_io (trace s) = load_events w ++ [EvWriteVersions (data (final r))]
     /\ writes (trace s) = match w_version_file w with Some _ => 1 | None => 2 end)
  /\ (forall e, log_setup h = Some e ->
        r = Raise e (initial w)
        /\ fst (script net h plugins w)
           = match e with KeyboardInterrupt => 1%Z | _ => 0%Z end
        /\ ledger_io (trace s) = []
        /\ writes (trace s) = 0
        /\ version_file s = w_version_file w
        /\ plugin_dir s = w_plugin_dir w).
Proof.
  intros r s. split.
  - intros Hlog.
    pose proof (main_ledger_io plugins w Hlog) as Hio. fold r in Hio.
    destruct (script_final plugins w) as (s1 & Hs & Hh & Hd & Hl & _).
    rewrite (main_handler plugins (initial w) Hlog) in Hh.
    fold s in Hs. fold r in Hd, Hl.
    assert (Htr : trace s = trace s1 ++ [EvWriteVersions (data (final r))]).
    { rewrite Hs. unfold reclaim. rewrite Hh. simpl. rewrite Hd. reflexivity. }
    assert (Hall : ledger_io (trace s)
                   = load_events w ++ [EvWriteVersions (data (final r))]).
    { rewrite Htr. unfold ledger_io. rewrite List.filter_app. simpl.
      fold (ledger_io (trace s1)). rewrite Hl, Hio. reflexivity. }
    split; [ | split; [ | split; [ exact Hall | ] ] ].
    + exists (trace s1). split; [ exact Htr | rewrite Hl; exact Hio ].
    + apply script_version_file, Hlog.
    + rewrite writes_ledger_io, Hall. unfold load_events.
      destruct (w_version_file w); reflexivity.
  - intros e Hlog.
    assert (Hr : r = Raise e (initial w)) by (apply main_unlogged, Hlog).
    split; [ exact Hr | ].
    subst s. unfold script. fold r. rewrite Hr.
    destruct e; repeat split.
Qed.

(** *** The loop of the Jenkins and GitHub handlers *)

Lemma recorded_all_updated (v : Z) (l : list string) (s : state) :
  updated (recorded_all v l s) = updated s + length l.
Proof.
  revert s. induction l as [ | n l IH ]; intros s; simpl; [ lia | ].
  rewrite IH. simpl. lia.
Qed.

Lemma recorded_all_other (v : Z) (l : list string) (s : state) (name : string) :
  ~ In name l -> data (recorded_all v l s) !! name = data s !! name.
Proof.
  revert s. induction l as [ | n l IH ]; intros s Hn; simpl; [ reflexivity | ].
  rewrite IH by (intros H; apply Hn; right; exact H).
  simpl. apply lookup_insert_ne. intros ->. apply Hn. left. reflexivity.
Qed.

Lemma recorded_all_lookup (v : Z) (l : list string) (s : state) (name : string) :
  In name l -> data (recorded_all v l s) !! name = Some v.
Proof.
  revert s. induction l as [ | n l IH ]; intros s Hin; simpl; [ destruct Hin | ].
  destruct (in_dec string_dec name l) as [Hl | Hl]; [ apply IH, Hl | ].
  destruct Hin as [-> | Hin]; [ | contradiction ].
  rewrite recorded_all_other by exact Hl. simpl. apply lookup_insert_eq.
Qed.



(** When every index resolves, the loop records the version for every
    file and adds one job entry per pair. *)
Lemma resolve_items_ok (direct_url : Z -> lookup_result string) (v : Z)
    (items : list (Z * string)) (urls : list string) (result : job) (s : state) :
  Forall2 (fun it u => direct_url (fst it) = inr u) items urls ->
  resolve_items direct_url v items result s
    = Ok (add_all (combine urls (map snd items)) result)
         (recorded_all v (map snd items) s).
Proof.
  intros H. revert result s.
  induction H as [ | [i file] u items urls Hu _ IH ]; intros result s; simpl.
  - reflexivity.
  - simpl in Hu. rewrite Hu. unfold set, incr_updated. run_m. apply IH.
Qed.

(** However the loop ends, it has recorded the version for a prefix of
    the files; when it returns, for all of them. *)
Lemma resolve_items_state (direct_url : Z -> lookup_result string) (v : Z)
    (items : list (Z * string)) (result j : job) (s s' : state) :
  resolve_items direct_url v items result s = Ok j s' ->
  s' = recorded_all v (map snd items) s.
Proof.
  revert result s. induction items as [ | [i file] rest IH ]; intros result s; simpl.
  - intros H. injection H as _ <-. reflexivity.
  - destruct (direct_url i) as [e | u]; run_m; [ discriminate | ].
    unfold set, incr_updated. run_m. apply IH.
Qed.

(** The first index that does not resolve ends the loop with its error. *)
Lemma resolve_items_raise (direct_url : Z -> lookup_result string) (v : Z)
    (items : list (Z * string)) (result : job) (s : state) :
  Exists (fun it => exists e, direct_url (fst it) = inl e) items ->
  exists i e s', In i (map fst items) /\ direct_url i = inl e
                 /\ resolve_items direct_url v items result s = Raise e s'.
Proof.
  revert result s. induction items as [ | [i file] rest IH ]; intros result s H.
  - inversion H.
  - simpl. destruct (direct_url i) as [e | u] eqn:Hi.
    + exists i, e, s. repeat split; [ left; reflexivity | exact Hi ].
    + assert (Hrest : Exists (fun it => exists e, direct_url (fst it) = inl e) rest).
      { inversion H as [? ? [e He] | ? ? Ht]; subst; [ | exact Ht ].
        simpl in He. congruence. }
      unfold set, incr_updated. run_m.
      destruct (IH (dict_set u (FStr file) result)
                   (set_counters (S (updated s)) (downloaded s) (total s)
                      (set_data (<[file := v]> (data s)) s)) Hrest)
        as (j & e & s' & Hin & Hj & Hr).
      exists j, e, s'. repeat split; [ right; exact Hin | exact Hj | exact Hr ].
Qed.

(** *** Jobs as insertion-ordered dicts *)

Lemma dict_set_fresh {V : Type} (k : string) (v : V) (d : list (string * V)) :
  k ∉ map fst d -> dict_set k v d = d ++ [(k, v)].
Proof.
  induction d as [ | [k' v'] d IH ]; intros Hn; simpl; [ reflexivity | ].
  simpl in Hn. apply not_elem_of_cons in Hn as [Hne Hn].
  destruct (String.eqb_spec k k') as [-> | _]; [ contradiction | ].
  rewrite IH by exact Hn. reflexivity.
Qed.

Lemma dict_set_keys_in {V : Type} (k k0 : string) (v : V) (d : list (string * V)) :
  k0 ∈ map fst (dict_set k v d) <-> k0 = k \/ k0 ∈ map fst d.
Proof.
  induction d as [ | [k' v'] d IH ]; simpl.
  - rewrite list_elem_of_singleton, elem_of_nil. tauto.
  - destruct (String.eqb_spec k k') as [-> | Hne]; simpl.
    + rewrite elem_of_cons. tauto.
    + rewrite !elem_of_cons, IH. tauto.
Qed.

Lemma dict_set_NoDup {V : Type} (k : string) (v : V) (d : list (string * V)) :
  NoDup (map fst d) -> NoDup (map fst (dict_set k v d)).
Proof.
  induction d as [ | [k' v'] d IH ]; simpl; intros Hd.
  - apply NoDup_singleton.
  - apply NoDup_cons in Hd as [Hn Hd].
    destruct (String.eqb_spec k k') as [-> | Hne]; simpl.
    + apply NoDup_cons. split; assumption.
    + apply NoDup_cons. split; [ | apply IH, Hd ].
      rewrite dict_set_keys_in. intros [-> | H]; [ apply Hne; reflexivity | contradiction ].
Qed.

Lemma add_all_NoDup (es : list (string * string)) (res : job) :
  NoDup (map fst res) -> NoDup (map fst (add_all es res)).
Proof.
  revert res. induction es as [ | e es IH ]; intros res H; simpl; [ exact H | ].
  apply IH, dict_set_NoDup, H.
Qed.

Lemma add_all_keys_in (es : list (string * string)) (res : job) (u : string) :
  u ∈ map fst (add_all es res) <-> u ∈ map fst es \/ u ∈ map fst res.
Proof.
  revert res. induction es as [ | e es IH ]; intros res; simpl.
  - rewrite elem_of_nil. tauto.
  - rewrite IH, dict_set_keys_in, elem_of_cons. tauto.
Qed.

Lemma add_all_fresh (es : list (string * string)) (res : job) :
  NoDup (map fst es ++ map fst res) ->
  add_all es res = res ++ map (fun e => (fst e, FStr (snd e))) es.
Proof.
  revert res. induction es as [ | e es IH ]; intros res H; simpl.
  - symmetry. apply app_nil_r.
  - simpl in H. apply NoDup_cons in H as [Hn Hd].
    rewrite elem_of_app in Hn.
    rewrite dict_set_fresh by tauto.
    rewrite IH.
    + rewrite <- app_assoc. reflexivity.
    + rewrite map_app. simpl. rewrite app_assoc.
      apply NoDup_app. split; [ exact Hd | ]. split.
      * intros x Hx Hk. apply list_elem_of_singleton in Hk as ->.
        rewrite elem_of_app in Hx. tauto.
      * apply NoDup_singleton.
Qed.

Lemma one_entry_per_key (d : job) (u : string) :
  NoDup (map fst d) -> u ∈ map fst d -> length (List.filter (has_url u) d) = 1.
Proof.
  induction d as [ | [k v] d IH ]; simpl; intros Hd Hin.
  - apply elem_of_nil in Hin as [].
  - apply NoDup_cons in Hd as [Hn Hd].
    unfold has_url at 1. simpl.
    destruct (String.eqb_spec k u) as [-> | Hne]; simpl.
    + f_equal. apply length_zero_iff_nil.
      clear IH Hin Hd. induction d as [ | [k' v'] d IH ]; simpl; [ reflexivity | ].
      simpl in Hn. apply not_elem_of_cons in Hn as [Hne Hn].
      unfold has_url at 1. simpl.
      destruct (String.eqb_spec k' u) as [-> | _]; [ contradiction | ].
      apply IH, Hn.
    + apply IH; [ exact Hd | ].
      apply elem_of_cons in Hin as [-> | Hin]; [ contradiction | exact Hin ].
Qed.

Lemma map_fst_combine {A B : Type} (l : list A) (k : list B) :
  length l = length k -> map fst (combine l k) = l.
Proof.
  revert k. induction l as [ | x l IH ]; intros [ | y k ] H; simpl in *;
    try discriminate; [ reflexivity | ].
  f_equal. apply IH. lia.
Qed.

Lemma map_combine_snd {A B C : Type} (g : B -> C) (l : list A) (k : list B) :
  map (fun e => (fst e, g (snd e))) (combine l k) = combine l (map g k).
Proof.
  revert k. induction l as [ | x l IH ]; intros [ | y k ]; simpl; try reflexivity.
  f_equal. apply IH.
Qed.

(** Change detection on a dict with a first pair. *)
Lemma resolve_changed_dict (direct_url : Z -> lookup_result string) (v : Z)
    (i : Z) (x : string) (rest : list (Z * string)) (s : state) :
  resolve_changed direct_url v (FDict ((i, x) :: rest)) s =
    if decide (data s !! x = Some v) then Ok None s
    else match resolve_items direct_url v ((i, x) :: rest) [] s with
         | Ok j s' => Ok (Some j) s'
         | Raise e s' => Raise e s'
         end.
Proof.
  unfold resolve_changed, first_file, items_of, get, gets, mbind, M_bind, mret, M_ret.
  destruct (decide (data s !! x = Some v)); reflexivity.
Qed.

(** *** Continuous-integration resolution *)


(** *** Indexing the artifact list *)

Lemma getitem_beyond {A : Type} (l : list A) (i : Z) :
  (Z.of_nat (length l) <= i)%Z -> PyStr.getitem l i = None.
Proof.
  intros Hi. unfold PyStr.getitem.
  destruct (Z.leb_spec 0 i) as [_ | Hneg]; [ | lia ].
  apply nth_error_None. lia.
Qed.

Lemma getitem_In {A : Type} (l : list A) (i : Z) (x : A) :
  PyStr.getitem l i = Some x -> In x l.
Proof.
  unfold PyStr.getitem.
  destruct (0 <=? i)%Z; [ apply nth_error_In | ].
  destruct (- Z.of_nat (length l) <=? i)%Z; [ apply nth_error_In | discriminate ].
Qed.

Lemma indexed_lookup_error (field : option (list (option string))) (i : Z) (e : exn) :
  indexed field i = inl e -> is_LookupError e = true.
Proof.
  unfold indexed. destruct field as [l | ]; [ | intros [= <-]; reflexivity ].
  destruct (PyStr.getitem l i) as [[rel | ] | ]; intros [= <-]; reflexivity.
Qed.

Lemma indexed_index_error (l : list (option string)) (i : Z) (e : exn) :
  List.Forall is_Some l -> indexed (Some l) i = inl e -> e = IndexError.
Proof.
  intros Hl. unfold indexed.
  destruct (PyStr.getitem l i) as [[rel | ] | ] eqn:Hi; intros [= <-]; [ | reflexivity ].
  apply getitem_In in Hi. rewrite List.Forall_forall in Hl.
  destruct (Hl None Hi) as [x Hx]. discriminate.
Qed.

Lemma indexed_beyond (l : list (option string)) (i : Z) :
  (Z.of_nat (length l) <= i)%Z -> indexed (Some l) i = inl IndexError.
Proof. intros Hi. unfold indexed. rewrite getitem_beyond by exact Hi. reflexivity. Qed.

Lemma jenkins_url_error (url : string) (d : metadata) (i : Z) (e : exn) :
  jenkins_url url d i = inl e -> indexed (md_artifacts d) i = inl e.
Proof.
  unfold jenkins_url. destruct (indexed (md_artifacts d) i); [ tauto | discriminate ].
Qed.

(** A detected change with a pair whose index does not resolve ends the
    resolution with the error of the first such pair. *)
Lemma resolve_changed_raise (direct_url : Z -> lookup_result string) (v : Z)
    (i0 : Z) (f0 : string) (rest : list (Z * string)) (i : Z) (file : string)
    (e0 : exn) (s : state) :
  data s !! f0 <> Some v ->
  In (i, file) ((i0, f0) :: rest) ->
  direct_url i = inl e0 ->
  exists j e s', direct_url j = inl e
                 /\ resolve_changed direct_url v (FDict ((i0, f0) :: rest)) s = Raise e s'.
Proof.
  intros Hcmp Hin Hi. rewrite resolve_changed_dict.
  destruct (decide (data s !! f0 = Some v)) as [He | _]; [ contradiction | ].
  destruct (resolve_items_raise direct_url v ((i0, f0) :: rest) [] s)
    as (j & e & s' & _ & Hj & Hr).
  - apply List.Exists_exists. exists (i, file). split; [ exact Hin | ].
    exists e0. exact Hi.
  - exists j, e, s'. rewrite Hr. split; [ exact Hj | reflexivity ].
Qed.

Lemma run_loop_raise (url domain : string) (f : files) (later : catalog)
    (s s' : state) (e : exn) :
  domain_of url = Some domain ->
  resolve net (classify domain) url f (tallied (file_count f) s) = Raise e s' ->
  run_loop net h ((KeyStr url, Files f) :: later) s = Raise e s'.
Proof.
  intros Hdom Hres. simpl. unfold run_entry, add_total. run_m.
  rewrite Hdom. simpl. rewrite Hres. reflexivity.
Qed.

(** C10.  In the Jenkins and the GitHub handler, once a change is
    detected, an index of the fileSpec at or beyond the length of the
    returned list makes the resolution raise a lookup error (an index
    error when every element of the list carries its path) instead of
    returning nothing.  The error is not caught in [run]: it ends the loop
    at this entry, whatever entries follow. *)
Theorem unguarded_artifact_index
    (url : string) (i0 : Z) (f0 : string) (rest : list (Z * string))
    (i : Z) (file : string) (s : state) (r : response) (d : metadata) (b : Z)
    (l : list (option string)) :
  let items := (i0, f0) :: rest in
  In (i, file) items ->
  (Z.of_nat (length l) <= i)%Z ->
  ok r = true -> json r = Some d ->
  data s !! f0 <> Some b ->
  (net (requests_made s) (jenkins_api url) = Reply r ->
   md_number d = Some b -> md_artifacts d = Some l ->
     (exists e s', _handle_jenkins net url (FDict items) s = Raise e s'
                   /\ is_LookupError e = true
                   /\ (List.Forall is_Some l -> e = IndexError))
     /\ (forall domain later,
           domain_of url = Some domain -> classify domain = ContinuousIntegration ->
           exists e s', run_loop net h ((KeyStr url, Files (FDict items)) :: later) s
                        = Raise e s'
                        /\ is_LookupError e = true))
  /\ (net (requests_made s) (github_api url) = Reply r ->
      md_id d = Some b -> md_assets d = Some l ->
     (exists e s', _handle_github net url (FDict items) s = Raise e s'
                   /\ is_LookupError e = true
                   /\ (List.Forall is_Some l -> e = IndexError))
     /\ (forall domain later,
           domain_of url = Some domain -> classify domain = SourceForge ->
           exists e s', run_loop net h ((KeyStr url, Files (FDict items)) :: later) s
                        = Raise e s'
                        /\ is_LookupError e = true)).
Proof.
  intros items Hin Hi Hok Hjson Hcmp.
  split; intros Hnet Hver Hlist.
  - assert (Hh : forall s0, requests_made s0 = requests_made s -> data s0 = data s ->
              exists e s', _handle_jenkins net url (FDict items) s0 = Raise e s'
                           /\ is_LookupError e = true
                           /\ (List.Forall is_Some l -> e = IndexError)).
    { intros s0 Hreq Hdata.
      destruct (resolve_changed_raise (jenkins_url url d) b i0 f0 rest i file IndexError
                  (sent (jenkins_api url) s0)) as (j & e & s' & Hj & Hr).
      - simpl. rewrite Hdata. exact Hcmp.
      - exact Hin.
      - unfold jenkins_url. rewrite Hlist, indexed_beyond by exact Hi. reflexivity.
      - exists e, s'. apply jenkins_url_error in Hj. rewrite Hlist in Hj.
        split; [ | split ].
        + unfold _handle_jenkins, requests_get, response_json. run_m.
          rewrite Hreq, Hnet, Hok, Hjson. simpl. rewrite Hver. exact Hr.
        + eapply indexed_lookup_error. exact Hj.
        + intros Hl. eapply indexed_index_error; eassumption. }
    split; [ apply Hh; reflexivity | ].
    intros domain later Hdom Hcls.
    destruct (Hh (tallied (file_count (FDict items)) s) eq_refl eq_refl)
      as (e & s' & Hr & He & _).
    exists e, s'. split; [ | exact He ].
    apply run_loop_raise with (domain := domain); [ exact Hdom | ].
    rewrite Hcls. exact Hr.
  - assert (Hh : forall s0, requests_made s0 = requests_made s -> data s0 = data s ->
              exists e s', _handle_github net url (FDict items) s0 = Raise e s'
                           /\ is_LookupError e = true
                           /\ (List.Forall is_Some l -> e = IndexError)).
    { intros s0 Hreq Hdata.
      destruct (resolve_changed_raise (github_url d) b i0 f0 rest i file IndexError
                  (sent (github_api url) s0)) as (j & e & s' & Hj & Hr).
      - simpl. rewrite Hdata. exact Hcmp.
      - exact Hin.
      - unfold github_url. rewrite Hlist. apply indexed_beyond, Hi.
      - exists e, s'. unfold github_url in Hj. rewrite Hlist in Hj.
        split; [ | split ].
        + unfold _handle_github, requests_get, response_json. run_m.
          rewrite Hreq, Hnet, Hok, Hjson. simpl. rewrite Hver. exact Hr.
        + eapply indexed_lookup_error. exact Hj.
        + intros Hl. eapply indexed_index_error; eassumption. }
    split; [ apply Hh; reflexivity | ].
    intros domain later Hdom Hcls.
    destruct (Hh (tallied (file_count (FDict items)) s) eq_refl eq_refl)
      as (e & s' & Hr & He & _).
    exists e, s'. split; [ | exact He ].
    apply run_loop_raise with (domain := domain); [ exact Hdom | ].
    rewrite Hcls. exact Hr.
Qed.

(** *** Resolution comes before the fetch *)

Lemma handle_spigot_cases (url : string) (f : files) (s : state) :
  _handle_spigot net url f s =
    let s1 := sent (spiget_latest (resource_of url)) s in
    match net (requests_made s) (spiget_latest (resource_of url)) with
    | NetRaise e => Raise e s1
    | Reply r =>
        if ok r then
          match json r with
          | None => Raise JSONDecodeError s1
          | Some d =>
              match md_id d, f with
              | None, _ => Raise KeyError s1
              | Some v, FDict _ => Raise TypeError s1
              | Some v, FStr name =>
                  if decide (data s !! name = Some v) then Ok None s1
                  else Ok (Some [(spiget_download (resource_of url) v, f)])
                          (recorded name v s1)
              end
          end
        else Ok None (emit (EvLog ERROR (msg_no_data url)) s1)
    end.
Proof.
  unfold _handle_spigot, requests_get, response_json, get, set, incr_updated, logging.
  run_m. destruct (net (requests_made s) _) as [r | e]; simpl; [ | reflexivity ].
  destruct (ok r); simpl; [ | reflexivity ].
  destruct (json r) as [d | ]; simpl; [ | reflexivity ].
  destruct (md_id d) as [v | ]; simpl; [ | reflexivity ].
  destruct f as [name | items]; [ | reflexivity ].
  change (data (sent (spiget_latest (resource_of url)) s)) with (data s).
  destruct (decide (data s !! name = Some v)); reflexivity.
Qed.

Lemma handle_jenkins_cases (url : string) (f : files) (s : state) :
  _handle_jenkins net url f s =
    let s1 := sent (jenkins_api url) s in
    match net (requests_made s) (jenkins_api url) with
    | NetRaise e => Raise e s1
    | Reply r =>
        if ok r then
          match json r with
          | None => Raise JSONDecodeError s1
          | Some d =>
              match md_number d with
              | None => Raise KeyError s1
              | Some b => resolve_changed (jenkins_url url d) b f s1
              end
          end
        else Ok None (emit (EvLog ERROR (msg_no_data url)) s1)
    end.
Proof.
  unfold _handle_jenkins, requests_get, response_json, logging, modify,
    lift, expect, raise, mbind, M_bind, mret, M_ret.
  destruct (net (requests_made s) _) as [r | e]; [ | reflexivity ].
  destruct (ok r); [ | reflexivity ].
  destruct (json r) as [d | ]; [ | reflexivity ].
  destruct (md_number d) as [b | ]; reflexivity.
Qed.

Lemma handle_github_cases (url : string) (f : files) (s : state) :
  _handle_github net url f s =
    let s1 := sent (github_api url) s in
    match net (requests_made s) (github_api url) with
    | NetRaise e => Raise e s1
    | Reply r =>
        if ok r then
          match json r with
          | None => Raise JSONDecodeError s1
          | Some d =>
              match md_id d with
              | None => Raise KeyError s1
              | Some b => resolve_changed (github_url d) b f s1
              end
          end
        else Ok None (emit (EvLog ERROR (msg_no_data url)) s1)
    end.
Proof.
  unfold _handle_github, requests_get, response_json, logging, modify,
    lift, expect, raise, mbind, M_bind, mret, M_ret.
  destruct (net (requests_made s) _) as [r | e]; [ | reflexivity ].
  destruct (ok r); [ | reflexivity ].
  destruct (json r) as [d | ]; [ | reflexivity ].
  destruct (md_id d) as [b | ]; reflexivity.
Qed.

(** Change detection that returns a job has recorded one version for
    every file of the catalog value. *)
Lemma resolve_changed_records (direct_url : Z -> lookup_result string) (v : Z)
    (f : files) (s s' : state) (j : job) :
  resolve_changed direct_url v f s = Ok (Some j) s' ->
  s' = recorded_all v (names f) s.
Proof.
  destruct f as [[ | c t] | [ | [i0 f0] rest]]; try discriminate.
  rewrite resolve_changed_dict.
  destruct (decide (data s !! f0 = Some v)); [ discriminate | ].
  destruct (resolve_items direct_url v ((i0, f0) :: rest) [] s) as [j' s2 | e s2] eqn:Hr;
    [ | discriminate ].
  intros [= _ <-]. apply resolve_items_state in Hr. exact Hr.
Qed.

(** A tracking variant that returns a job has sent one request, the
    metadata query, and has recorded the version it found for every file
    of the entry, counting each. *)
Lemma resolve_records (v : variant) (url : string) (f : files) (s s1 : state) (j : job) :
  v <> Direct ->
  resolve net v url f s = Ok (Some j) s1 ->
  exists ver api,
    s1 = recorded_all ver (names f) (sent api s).
Proof.
  intros Hv. destruct v; simpl; [ | | | contradiction ].
  - rewrite handle_spigot_cases. simpl.
    destruct (net (requests_made s) _) as [r | e]; [ | discriminate ].
    destruct (ok r); [ | discriminate ].
    destruct (json r) as [d | ]; [ | discriminate ].
    destruct (md_id d) as [ver | ]; [ | discriminate ].
    destruct f as [name | items]; [ | discriminate ].
    destruct (decide (data s !! name = Some ver)); [ discriminate | ].
    intros [= _ <-]. exists ver, (spiget_latest (resource_of url)). reflexivity.
  - rewrite handle_jenkins_cases. simpl.
    destruct (net (requests_made s) _) as [r | e]; [ | discriminate ].
    destruct (ok r); [ | discriminate ].
    destruct (json r) as [d | ]; [ | discriminate ].
    destruct (md_number d) as [ver | ]; [ | discriminate ].
    intros H. apply resolve_changed_records in H.
    exists ver, (jenkins_api url). exact H.
  - rewrite handle_github_cases. simpl.
    destruct (net (requests_made s) _) as [r | e]; [ | discriminate ].
    destruct (ok r); [ | discriminate ].
    destruct (json r) as [d | ]; [ | discriminate ].
    destruct (md_id d) as [ver | ]; [ | discriminate ].
    intros H. apply resolve_changed_records in H.
    exists ver, (github_api url). exact H.
Qed.





(** The constructor on a disk whose ledger file decodes. *)
Lemma init_loads (w : world) (m : gmap string Z) :
  w_version_file w = Some (ValidJson m) ->
  exists s0, PluginUpdater__init__ (initial w) = Ok tt s0
             /\ data s0 = m
             /\ version_file s0 = Some (ValidJson m).
Proof.
  destruct w as [vf [d | ]]; simpl; intros ->; eexists; repeat split.
Qed.



End Properties.

(** ** The theorems at concrete inputs *)

(** The two marketplace scenarios: the ledger holds 1000 for LuckPerms.jar
    and the lookup returns 1000, then 1050. *)
Lemma handle_spigot_postcondition_witness :
  (_handle_spigot (Examples.spiget 1000) Examples.luckperms (FStr "LuckPerms.jar")
     Examples.loaded
   = Ok None (sent (spiget_latest "28140") Examples.loaded))
  /\ (_handle_spigot (Examples.spiget 1050) Examples.luckperms (FStr "LuckPerms.jar")
        Examples.loaded
      = Ok (Some [("https://api.spiget.org/v2/resources/28140/download?version=1050",
                   FStr "LuckPerms.jar")])
           (recorded "LuckPerms.jar" 1050 (sent (spiget_latest "28140") Examples.loaded))).
Proof.
  split.
  - apply (handle_spigot_postcondition (Examples.spiget 1000) Examples.rooted
             Examples.luckperms "LuckPerms.jar" Examples.loaded
             (Response true (Some (Metadata (Some 1000%Z) None None None)) "")
             (Metadata (Some 1000%Z) None None None) 1000%Z);
      reflexivity.
  - apply (handle_spigot_postcondition (Examples.spiget 1050) Examples.rooted
             Examples.luckperms "LuckPerms.jar" Examples.loaded
             (Response true (Some (Metadata (Some 1050%Z) None None None)) "")
             (Metadata (Some 1050%Z) None None None) 1050%Z);
      try reflexivity.
    vm_compute. discriminate.
Defined.



(** A host whose first label merely ends in ci is taken for a Jenkins
    server. *)
Lemma first_label_rule_counterexample :
  domain_of "https://pci.example.com/job/Plugin" = Some "pci.example.com"
  /\ classify "pci.example.com" = ContinuousIntegration
  /\ first_label "pci.example.com" = "pci"
  /\ ~ first_label_rule "pci.example.com".
Proof.
  repeat split.
  intros (_ & [Hci _] & _). specialize (Hci eq_refl). discriminate Hci.
Qed.

(** A catalog whose second entry is malformed: the first entry is
    processed, the third is not, and the exit status is 0. *)
Lemma malformed_entry_returns_witness :
  exists s',
    script Examples.unavailable Examples.rooted Examples.broken_catalog Examples.fresh
      = (0%Z, VersionFileHandler__del__ s')
    /\ List.filter is_request (trace s') = [EvGet Examples.worldguard].
Proof.
  edestruct (malformed_entry_returns Examples.unavailable Examples.rooted
               [(KeyStr Examples.worldguard, Files (FStr "WorldGuard.jar"))]
               [(KeyStr Examples.jenkins, Files (FDict Examples.two_files))]
               (KeyStr Examples.luckperms, ValueOther) Examples.fresh)
    as (_ & _ & H).
  - right. reflexivity.
  - reflexivity.
  - reflexivity.
  - reflexivity.
  - eexists. split; [ exact H | reflexivity ].
Defined.

Lemma nonzero_exit_counterexample :
  fst (script Examples.unavailable Examples.rooted Examples.broken_catalog Examples.fresh)
  = 0%Z
  /\ ~ Claimed.nonzero_exit Examples.unavailable Examples.rooted Examples.broken_catalog
        Examples.fresh.
Proof. split; [ reflexivity | ]. intros H. apply H. reflexivity. Qed.

(** An empty catalog on a later run: the ledger file is read at start and
    written back at teardown. *)
Lemma empty_catalog_run_witness :
  trace (snd (script Examples.unavailable Examples.rooted [] Examples.installed))
  = [EvReadVersions; EvLog INFO msg_running; EvLog CRITICAL msg_no_plugins;
     EvWriteVersions Examples.ledger_1000].
Proof.
  rewrite (empty_catalog_run Examples.unavailable Examples.rooted Examples.installed).
  - reflexivity.
  - reflexivity.
  - discriminate.
Defined.

Lemma untouched_counterexample :
  ~ Claimed.untouched Examples.unavailable Examples.rooted Examples.installed.
Proof.
  intros (_ & _ & Hio & _). vm_compute in Hio. discriminate Hio.
Qed.

(** A damaged ledger file: the constructor raises a JSON decode error. *)
Lemma ledger_load_witness :
  VersionFileHandler__init__ (initial Examples.damaged)
  = Raise JSONDecodeError (emit EvReadVersions (set_data ∅ (initial Examples.damaged))).
Proof.
  apply (ledger_load Examples.unavailable Examples.rooted [] Examples.damaged
           (initial Examples.damaged)).
  reflexivity.
Defined.

Lemma load_fails_with_IOError_counterexample :
  ~ Claimed.load_fails_with_IOError (initial Examples.damaged).
Proof. intros [s' H]. discriminate H. Qed.

(** A first run writes the ledger file twice: once to create it, once at
    teardown. *)
Lemma flushed_once_counterexample :
  writes (trace (snd (script Examples.unavailable Examples.rooted Examples.two_plugins
                        Examples.fresh))) = 2
  /\ ~ Claimed.flushed_once Examples.unavailable Examples.rooted Examples.two_plugins
        Examples.fresh.
Proof.
  split; [ reflexivity | ]. intros H. vm_compute in H. discriminate H.
Qed.

(** A first run interrupted during the second download: the exit status
    is 1 and the ledger on disk holds both files of the build.  A later
    run interrupted before the ledger object exists: the exit status is 1
    and the ledger file is as it was, not written once. *)
Lemma teardown_flush_witness :
  (fst (script Examples.interrupted Examples.rooted
          [(KeyStr Examples.jenkins, Files (FDict Examples.two_files))] Examples.fresh)
   = 1%Z
   /\ exists m,
        version_file (snd (script Examples.interrupted Examples.rooted
                             [(KeyStr Examples.jenkins, Files (FDict Examples.two_files))]
                             Examples.fresh)) = Some (ValidJson m)
        /\ m !! "A.jar" = Some 42%Z
        /\ m !! "B.jar" = Some 42%Z
        /\ ledger_io (trace (snd (script Examples.interrupted Examples.rooted
                                    [(KeyStr Examples.jenkins,
                                      Files (FDict Examples.two_files))]
                                    Examples.fresh)))
           = [EvWriteVersions ∅; EvWriteVersions m])
  /\ (fst (script Examples.unavailable Examples.interrupted_early Examples.two_plugins
             Examples.installed) = 1%Z
      /\ writes (trace (snd (script Examples.unavailable Examples.interrupted_early
                               Examples.two_plugins Examples.installed))) = 0
      /\ version_file (snd (script Examples.unavailable Examples.interrupted_early
                              Examples.two_plugins Examples.installed))
         = Some (ValidJson Examples.ledger_1000)).
Proof.
  split.
  - split; [ reflexivity | ].
    destruct (proj1 (teardown_flush Examples.interrupted Examples.rooted
                       [(KeyStr Examples.jenkins, Files (FDict Examples.two_files))]
                       Examples.fresh) eq_refl)
      as (_ & Hfile & Hio & _).
    eexists. split; [ exact Hfile | ].
    split; [ reflexivity | ]. split; [ reflexivity | exact Hio ].
  - destruct (proj2 (teardown_flush Examples.unavailable Examples.interrupted_early
                       Examples.two_plugins Examples.installed)
                KeyboardInterrupt eq_refl)
      as (_ & Hexit & _ & Hwrites & Hfile & _).
    split; [ exact Hexit | ]. split; [ exact Hwrites | exact Hfile ].
Defined.

(** A direct link is requested although nothing is known about it. *)
Lemma direct_entry_unconditional_witness :
  run_entry Examples.unavailable Examples.rooted Examples.worldguard
    (FStr "WorldGuard.jar") Examples.loaded
  = download Examples.unavailable Examples.rooted
      (Some [(Examples.worldguard, FStr "WorldGuard.jar")])
      (tallied 1 Examples.loaded).
Proof.
  apply (direct_entry_unconditional Examples.unavailable Examples.rooted
           Examples.worldguard "dev.bukkit.org" (FStr "WorldGuard.jar") Examples.loaded);
    reflexivity.
Defined.


(** Index 2 of a fileSpec against a build with two artifacts, and index 1
    against a release with one asset. *)
Lemma unguarded_artifact_index_witness :
  (exists e s',
     _handle_jenkins Examples.build_42 Examples.jenkins
       (FDict [(0%Z, "A.jar"); (2%Z, "B.jar")]) Examples.started = Raise e s'
     /\ is_LookupError e = true)
  /\ (exists e s',
        _handle_github Examples.release_7 Examples.github
          (FDict [(1%Z, "TAB.jar")]) Examples.started = Raise e s'
        /\ is_LookupError e = true).
Proof.
  split.
  - destruct (unguarded_artifact_index Examples.build_42 Examples.rooted Examples.jenkins
                0%Z "A.jar" [(2%Z, "B.jar")] 2%Z "B.jar" Examples.started
                (Response true
                   (Some (Metadata None (Some 42%Z)
                            (Some [Some "out/A.jar"; Some "out/B.jar"]) None)) "")
                (Metadata None (Some 42%Z) (Some [Some "out/A.jar"; Some "out/B.jar"]) None)
                42%Z [Some "out/A.jar"; Some "out/B.jar"])
      as [H _].
    + simpl. tauto.
    + simpl. lia.
    + reflexivity.
    + reflexivity.
    + vm_compute. discriminate.
    + destruct (H eq_refl eq_refl eq_refl) as [(e & s' & Hr & He & _) _].
      exists e, s'. split; assumption.
  - destruct (unguarded_artifact_index Examples.release_7 Examples.rooted Examples.github
                1%Z "TAB.jar" [] 1%Z "TAB.jar" Examples.started
                (Response true
                   (Some (Metadata (Some 7%Z) None None (Some [Some "https://dl/TAB.jar"]))) "")
                (Metadata (Some 7%Z) None None (Some [Some "https://dl/TAB.jar"]))
                7%Z [Some "https://dl/TAB.jar"])
      as [_ H].
    + simpl. tauto.
    + simpl. lia.
    + reflexivity.
    + reflexivity.
    + vm_compute. discriminate.
    + destruct (H eq_refl eq_refl eq_refl) as [(e & s' & Hr & He & _) _].
      exists e, s'. split; assumption.
Defined.

(** ** Further properties of the script *)

Section Carried.

Variable net : network.
Variable h : host.
Variable R : state -> state -> Prop.
Variable E : exn -> Prop.
Hypothesis HR : closed net h R E.

Lemma carries_ret {A : Type} (a : A) : carries R E (mret a : M A).
Proof. intros s. apply HR. Qed.

Lemma carries_bind {A B : Type} (m : M A) (k : A -> M B) :
  carries R E m -> (forall a, carries R E (k a)) -> carries R E (m ≫= k).
Proof.
  intros Hm Hk s. unfold mbind, M_bind. specialize (Hm s).
  destruct (m s) as [a s1 | e s1]; [ | exact Hm ].
  specialize (Hk a s1). destruct (k a s1) as [b s2 | e s2].
  - eapply closed_trans; eauto.
  - destruct Hk as [Hk He]. split; [ eapply closed_trans; eauto | exact He ].
Qed.

Lemma carries_raise {A : Type} (e : exn) :
  e <> KeyboardInterrupt -> carries R E (raise e : M A).
Proof. intros He s. split; [ apply HR | apply HR, He ]. Qed.

Lemma carries_lift {A : Type} (r : lookup_result A) :
  (forall e, r = inl e -> e <> KeyboardInterrupt) -> carries R E (lift r).
Proof.
  intros Hr. destruct r as [e | a]; simpl.
  - apply carries_raise, Hr. reflexivity.
  - apply carries_ret.
Qed.

Lemma carries_expect {A : Type} (e : exn) (o : option A) :
  e <> KeyboardInterrupt -> carries R E (lift (expect e o)).
Proof.
  intros He. apply carries_lift. destruct o; simpl; intros e' [= <-]. exact He.
Qed.

Lemma carries_get (key : string) : carries R E (get key).
Proof. intros s. apply HR. Qed.

Lemma carries_logging (l : level) (msg : string) : carries R E (logging l msg).
Proof. intros s. apply HR. Qed.

Lemma carries_requests_get (url : string) : carries R E (requests_get net url).
Proof.
  intros s. unfold requests_get.
  destruct (net (requests_made s) url) as [r | e] eqn:Hn.
  - apply HR.
  - split; [ apply HR | eapply closed_net; eauto ].
Qed.

Lemma open_wb_exn (path : string) (e : exn) :
  open_wb h path = inl e -> e = ValueError \/ e = OSError.
Proof.
  unfold open_wb. destruct (PyStr.contains PyStr.NUL path); [ intros [= <-]; auto | ].
  destruct (names_directory path); [ intros [= <-]; auto | ].
  destruct (lands h path); simpl; [ discriminate | intros [= <-]; auto ].
Qed.

Lemma carries_fetch (path content : string) :
  carries R E (write_plugin h path content;; incr_downloaded).
Proof.
  intros s. unfold mbind, M_bind, write_plugin.
  destruct (open_wb h path) as [e | p] eqn:Hopen.
  - split; [ apply HR | apply HR ].
    destruct (open_wb_exn path e Hopen) as [-> | ->]; discriminate.
  - destruct (plugin_dir s) as [d | ] eqn:Hd.
    + pose proof (closed_fetched net h R E HR path content p d s Hopen Hd) as Hf.
      destruct p; exact Hf.
    + split; [ apply HR | apply HR; discriminate ].
Qed.

Lemma carries_record_then {A : Type} (key : string) (v : Z) (m : M A) :
  carries R E m -> carries R E (set key v;; incr_updated;; m).
Proof.
  intros Hm s.
  change ((set key v;; incr_updated;; m) s) with (m (recorded key v s)).
  specialize (Hm (recorded key v s)).
  pose proof (closed_recorded net h R E HR key v s) as Hrec.
  destruct (m (recorded key v s)) as [a s1 | e s1].
  - eapply closed_trans; eauto.
  - destruct Hm as [Hm He]. split; [ eapply closed_trans; eauto | exact He ].
Qed.

Lemma carries_download_items (items : job) : carries R E (download_items net h items).
Proof.
  induction items as [ | [url file] rest IH ]; simpl.
  - apply carries_ret.
  - apply carries_bind; [ apply carries_requests_get | intros r ].
    apply carries_bind; [ | intros _; exact IH ].
    destruct (ok r); [ apply carries_fetch | apply carries_logging ].
Qed.

Lemma carries_download (j : option job) : carries R E (download net h j).
Proof. destruct j; simpl; [ apply carries_download_items | apply carries_ret ]. Qed.

Lemma carries_handle_spigot (url : string) (f : files) :
  carries R E (_handle_spigot net url f).
Proof.
  unfold _handle_spigot.
  apply carries_bind; [ apply carries_requests_get | intros r ].
  destruct (ok r).
  - apply carries_bind; [ apply carries_expect; discriminate | intros d ].
    apply carries_bind; [ apply carries_expect; discriminate | intros v ].
    destruct f as [name | items]; [ | apply carries_raise; discriminate ].
    apply carries_bind; [ apply carries_get | intros o ].
    destruct (decide (o = Some v)); [ apply carries_ret | ].
    apply carries_record_then, carries_ret.
  - apply carries_bind; [ apply carries_logging | intros _; apply carries_ret ].
Qed.

Lemma indexed_not_interrupt (field : option (list (option string))) (i : Z) (e : exn) :
  indexed field i = inl e -> e <> KeyboardInterrupt.
Proof.
  unfold indexed. destruct field as [l | ]; [ | intros [= <-]; discriminate ].
  destruct (PyStr.getitem l i) as [[x | ] | ]; intros [= <-]; discriminate.
Qed.

Lemma carries_resolve_items (direct_url : Z -> lookup_result string) (v : Z)
    (items : list (Z * string)) :
  (forall i e, direct_url i = inl e -> e <> KeyboardInterrupt) ->
  forall result, carries R E (resolve_items direct_url v items result).
Proof.
  intros Hd. induction items as [ | [i file] rest IH ]; intros result; simpl.
  - apply carries_ret.
  - apply carries_bind; [ apply carries_lift, Hd | intros u ].
    apply carries_record_then, IH.
Qed.

Lemma carries_resolve_changed (direct_url : Z -> lookup_result string) (v : Z) (f : files) :
  (forall i e, direct_url i = inl e -> e <> KeyboardInterrupt) ->
  carries R E (resolve_changed direct_url v f).
Proof.
  intros Hd.
  destruct f as [[ | c t] | [ | [i x] r]];
    try (intros s; split; [ apply HR | apply HR; discriminate ]).
  change (resolve_changed direct_url v (FDict ((i, x) :: r)))
    with (recorded ← get x;
          if decide (recorded = Some v) then mret None
          else result ← resolve_items direct_url v ((i, x) :: r) [];
               mret (Some result)).
  apply carries_bind; [ apply carries_get | intros o ].
  destruct (decide (o = Some v)); [ apply carries_ret | ].
  apply carries_bind; [ apply carries_resolve_items, Hd | intros res; apply carries_ret ].
Qed.

Lemma carries_handle_jenkins (url : string) (f : files) :
  carries R E (_handle_jenkins net url f).
Proof.
  unfold _handle_jenkins.
  apply carries_bind; [ apply carries_requests_get | intros r ].
  destruct (ok r).
  - apply carries_bind; [ apply carries_expect; discriminate | intros d ].
    apply carries_bind; [ apply carries_expect; discriminate | intros v ].
    apply carries_resolve_changed. intros i e He.
    apply jenkins_url_error in He. eapply indexed_not_interrupt, He.
  - apply carries_bind; [ apply carries_logging | intros _; apply carries_ret ].
Qed.

Lemma carries_handle_github (url : string) (f : files) :
  carries R E (_handle_github net url f).
Proof.
  unfold _handle_github.
  apply carries_bind; [ apply carries_requests_get | intros r ].
  destruct (ok r).
  - apply carries_bind; [ apply carries_expect; discriminate | intros d ].
    apply carries_bind; [ apply carries_expect; discriminate | intros v ].
    apply carries_resolve_changed. intros i e He. eapply indexed_not_interrupt, He.
  - apply carries_bind; [ apply carries_logging | intros _; apply carries_ret ].
Qed.

Lemma carries_resolve (v : variant) (url : string) (f : files) :
  carries R E (resolve net v url f).
Proof.
  destruct v; simpl.
  - apply carries_handle_spigot.
  - apply carries_handle_jenkins.
  - apply carries_handle_github.
  - apply carries_ret.
Qed.

(** What [run] adds to those steps: the tally of the files of an entry. *)
Hypothesis HT : forall n s, R s (tallied n s).

Lemma carries_run_entry (url : string) (f : files) : carries R E (run_entry net h url f).
Proof.
  unfold run_entry.
  apply carries_bind; [ intros s; apply HT | intros _ ].
  apply carries_bind; [ apply carries_expect; discriminate | intros domain ].
  apply carries_bind; [ apply carries_resolve | intros j; apply carries_download ].
Qed.

Lemma carries_run_loop (plugins : catalog) : carries R E (run_loop net h plugins).
Proof.
  induction plugins as [ | [k v] rest IH ]; simpl.
  - apply carries_ret.
  - destruct k as [url | ], v as [f | ]; try apply carries_ret.
    apply carries_bind; [ apply carries_run_entry | intros _; exact IH ].
Qed.

Lemma carries_run (plugins : catalog) : carries R E (run net h plugins).
Proof.
  unfold run.
  apply carries_bind; [ apply carries_logging | intros _ ].
  destruct plugins as [ | e rest ]; [ apply carries_logging | ].
  apply carries_bind; [ apply carries_run_loop | intros [ | ] ]; simpl.
  - apply carries_bind; [ intros s; apply HR | intros s; apply carries_logging ].
  - apply carries_ret.
Qed.

End Carried.

Section Accounting.

Variable net : network.
Variable h : host.

(** *** What a run never undoes *)

Lemma extends_refl (s : state) : extends h s s.
Proof.
  split; [ lia | ]. split; [ lia | ]. split; [ reflexivity | ]. split.
  - intros d Hd. exists d. split; [ exact Hd | reflexivity ].
  - exists []. rewrite app_nil_r. simpl. repeat split; lia.
Qed.

Lemma extends_trans (s1 s2 s3 : state) :
  extends h s1 s2 -> extends h s2 s3 -> extends h s1 s3.
Proof.
  intros (Hu1 & Ht1 & Hk1 & Hd1 & evs1 & Htr1 & He1 & Hr1 & Hw1 & Hf1)
         (Hu2 & Ht2 & Hk2 & Hd2 & evs2 & Htr2 & He2 & Hr2 & Hw2 & Hf2).
  split; [ lia | ]. split; [ lia | ]. split; [ set_solver | ]. split.
  - intros d Hd. destruct (Hd1 d Hd) as (d2 & Hd2' & Hsub).
    destruct (Hd2 d2 Hd2') as (d3 & Hd3 & Hsub'). exists d3. split; [ exact Hd3 | set_solver ].
  - exists (evs1 ++ evs2). rewrite Htr2, Htr1, <- app_assoc.
    rewrite forallb_app, He1, He2, !List.filter_app, !length_app.
    split; [ reflexivity | ]. split; [ reflexivity | ]. split; [ lia | ]. split; [ lia | ].
    rewrite forallb_app. intros Hall. apply andb_true_iff in Hall as [Ha1 Ha2].
    rewrite (Hf2 Ha2). exact (Hf1 Ha1).
Qed.

Lemma extends_closed : closed net h (extends h) (fun _ => True).
Proof.
  split; try (intros; exact I).
  - apply extends_refl.
  - apply extends_trans.
  - intros l msg s.
    split; [ simpl; lia | ]. split; [ simpl; lia | ]. split; [ reflexivity | ]. split.
    + intros d Hd. exists d. split; [ exact Hd | reflexivity ].
    + exists [EvLog l msg]. simpl. repeat split; lia.
  - intros url s.
    split; [ simpl; lia | ]. split; [ simpl; lia | ]. split; [ reflexivity | ]. split.
    + intros d Hd. exists d. split; [ exact Hd | reflexivity ].
    + exists [EvGet url]. simpl. repeat split; lia.
  - intros path content p d s Hopen Hd.
    split; [ destruct p; simpl; lia | ]. split; [ destruct p; simpl; lia | ].
    split; [ destruct p; reflexivity | ]. split.
    + intros d0 Hd0. rewrite Hd in Hd0. injection Hd0 as <-.
      destruct p; simpl.
      * eexists. split; [ reflexivity | ]. rewrite dom_insert_L. set_solver.
      * exists d. split; [ exact Hd | reflexivity ].
      * exists d. split; [ exact Hd | reflexivity ].
    + exists [EvWritePlugin path content].
      split; [ destruct p; reflexivity | ]. split; [ reflexivity | ].
      split; [ destruct p; simpl; lia | ]. split; [ destruct p; simpl; lia | ].
      simpl. rewrite Hopen. destruct p; simpl; try reflexivity. discriminate.
  - intros key v s.
    split; [ simpl; lia | ]. split; [ simpl; lia | ].
    split; [ simpl; rewrite dom_insert_L; set_solver | ]. split.
    + intros d Hd. exists d. split; [ exact Hd | reflexivity ].
    + exists []. simpl. rewrite app_nil_r. repeat split; lia.
Qed.

Lemma extends_tallied (n : nat) (s : state) : extends h s (tallied n s).
Proof.
  split; [ simpl; lia | ]. split; [ simpl; lia | ]. split; [ reflexivity | ]. split.
  - intros d Hd. exists d. split; [ exact Hd | reflexivity ].
  - exists []. simpl. rewrite app_nil_r. repeat split; lia.
Qed.

Lemma run_extends (plugins : catalog) (s : state) :
  extends h s (final (run net h plugins s)).
Proof.
  pose proof (carries_run net h (extends h) (fun _ => True) extends_closed extends_tallied
                plugins s) as H.
  destruct (run net h plugins s) as [a s' | e s']; simpl; [ exact H | apply H ].
Qed.

(** X1.  Whatever [run] meets, it undoes nothing: no counter is lower at
    the end than at the start, every file name the ledger knew still has a
    record, and every file of the plugin directory is still there.  The
    ledger file on disk is as it was, unless a body was written through a
    path that leads to it. *)
Theorem run_never_undoes (plugins : catalog) (s : state) :
  updated s <= updated (final (run net h plugins s))
  /\ downloaded s <= downloaded (final (run net h plugins s))
  /\ total s <= total (final (run net h plugins s))
  /\ requests_made s <= requests_made (final (run net h plugins s))
  /\ (forall name, is_Some (data s !! name) ->
                   is_Some (data (final (run net h plugins s)) !! name))
  /\ (forall d entry, plugin_dir s = Some d -> is_Some (d !! entry) ->
        exists d', plugin_dir (final (run net h plugins s)) = Some d'
                   /\ is_Some (d' !! entry))
  /\ ((forall path content,
         In (EvWritePlugin path content) (trace (final (run net h plugins s))) ->
         open_wb h path <> inr OnLedger) ->
      version_file (final (run net h plugins s)) = version_file s).
Proof.
  destruct (run_extends plugins s)
    as (Hu & Ht & Hk & Hd & evs & Htr & _ & Hr & Hw & Hf).
  repeat split; try lia.
  - intros name Hn. apply elem_of_dom. apply Hk. apply elem_of_dom. exact Hn.
  - intros d entry Hdir Hp. destruct (Hd d Hdir) as (d' & Hd' & Hsub).
    exists d'. split; [ exact Hd' | ]. apply elem_of_dom, Hsub, elem_of_dom, Hp.
  - intros Hpaths. apply Hf. apply forallb_forall. intros e He.
    destruct e as [ | | | | path content | | ]; try reflexivity.
    simpl. specialize (Hpaths path content).
    rewrite Htr in Hpaths. specialize (Hpaths (in_or_app _ _ _ (or_intror He))).
    destruct (open_wb h path) as [e | [entry | | ]]; try reflexivity. contradiction.
Qed.


End Accounting.

Section Counters.

Variable net : network.
Variable h : host.

(** *** The total counter *)

Lemma total_closed : closed net h (fun s s' => total s' = total s) (fun _ => True).
Proof.
  split; try (intros; exact I); try (intros; reflexivity).
  intros s1 s2 s3 H1 H2. congruence.
Qed.

Lemma total_run_entry (url : string) (f : files) (s : state) :
  total (final (run_entry net h url f s)) = total s + file_count f.
Proof.
  pose (m := (domain ← lift (expect IndexError (domain_of url));
              data ← resolve net (classify domain) url f;
              download net h data) : M unit).
  change (run_entry net h url f s) with (m (tallied (file_count f) s)).
  assert (H : carries (fun s s' => total s' = total s) (fun _ => True) m).
  { apply (carries_bind net h _ _ total_closed).
    - apply (carries_expect net h _ _ total_closed). discriminate.
    - intros domain. apply (carries_bind net h _ _ total_closed).
      + apply (carries_resolve net h _ _ total_closed).
      + intros j. apply (carries_download net h _ _ total_closed). }
  specialize (H (tallied (file_count f) s)).
  destruct (m (tallied (file_count f) s)) as [a s' | e s']; simpl;
    [ rewrite H | rewrite (proj1 H) ]; reflexivity.
Qed.

(** X3.  [run] counts every file of every entry it dispatches, before it
    resolves the entry and whatever comes of it: the total never exceeds
    the number of files in the catalog, and when the loop has gone through
    the whole catalog it has grown by exactly that number. *)
Theorem total_counts_catalog (plugins : catalog) (s : state) :
  total (final (run_loop net h plugins s)) <= total s + total_files plugins
  /\ forall s', run_loop net h plugins s = Ok Exhausted s' ->
                total s' = total s + total_files plugins.
Proof.
  revert s. induction plugins as [ | [k v] rest IH ]; intros s.
  - simpl. split; [ lia | ]. intros s' [= <-]. lia.
  - destruct k as [url | ], v as [f | ];
      try (simpl; split; [ lia | intros s' H; discriminate H ]).
    pose proof (total_run_entry url f s) as Ht.
    cbn [run_loop total_files]. unfold mbind, M_bind.
    destruct (run_entry net h url f s) as [[] s1 | e s1]; simpl in Ht.
    + destruct (IH s1) as [Hle Heq]. split.
      * lia.
      * intros s' H. rewrite (Heq s' H). lia.
    + simpl. split; [ lia | intros s' H; discriminate H ].
Qed.

(** *** The updated counter against the total *)

Lemma updated_resolve_items (direct_url : Z -> lookup_result string) (v : Z)
    (items : list (Z * string)) (result : job) (s : state) :
  updated (final (resolve_items direct_url v items result s)) <= updated s + length items.
Proof.
  revert result s. induction items as [ | [i file] rest IH ]; intros result s; simpl.
  - lia.
  - destruct (direct_url i) as [e | u]; simpl; [ lia | ].
    unfold set, incr_updated. run_m.
    etransitivity; [ apply IH | ]. simpl. lia.
Qed.

Lemma updated_resolve_changed (direct_url : Z -> lookup_result string) (v : Z)
    (f : files) (s : state) :
  updated (final (resolve_changed direct_url v f s)) <= updated s + file_count f.
Proof.
  destruct f as [[ | c t] | [ | [i x] r]]; try (simpl; lia).
  rewrite resolve_changed_dict.
  destruct (decide (data s !! x = Some v)); [ simpl; lia | ].
  pose proof (updated_resolve_items direct_url v ((i, x) :: r) [] s) as H.
  destruct (resolve_items direct_url v ((i, x) :: r) [] s); exact H.
Qed.

Lemma updated_resolve (v : variant) (url : string) (f : files) (s : state) :
  updated (final (resolve net v url f s)) <= updated s + file_count f.
Proof.
  destruct v; simpl; [ | | | lia ].
  - rewrite handle_spigot_cases. simpl.
    destruct (net (requests_made s) _) as [r | e]; simpl; [ | lia ].
    destruct (ok r); simpl; [ | lia ].
    destruct (json r) as [d | ]; simpl; [ | lia ].
    destruct (md_id d) as [ver | ]; simpl; [ | lia ].
    destruct f as [name | items]; simpl; [ | lia ].
    destruct (decide (data s !! name = Some ver)); simpl; lia.
  - rewrite handle_jenkins_cases. simpl.
    destruct (net (requests_made s) _) as [r | e]; simpl; [ | lia ].
    destruct (ok r); simpl; [ | lia ].
    destruct (json r) as [d | ]; simpl; [ | lia ].
    destruct (md_number d) as [ver | ]; simpl; [ | lia ].
    apply (updated_resolve_changed _ ver f (sent (jenkins_api url) s)).
  - rewrite handle_github_cases. simpl.
    destruct (net (requests_made s) _) as [r | e]; simpl; [ | lia ].
    destruct (ok r); simpl; [ | lia ].
    destruct (json r) as [d | ]; simpl; [ | lia ].
    destruct (md_id d) as [ver | ]; simpl; [ | lia ].
    apply (updated_resolve_changed _ ver f (sent (github_api url) s)).
Qed.

Lemma updated_run_entry (url : string) (f : files) (s : state) :
  updated (final (run_entry net h url f s)) <= updated s + file_count f.
Proof.
  unfold run_entry, add_total. run_m.
  destruct (domain_of url) as [domain | ]; simpl; [ | lia ].
  pose proof (updated_resolve (classify domain) url f (tallied (file_count f) s)) as H.
  destruct (resolve net (classify domain) url f (tallied (file_count f) s))
    as [j s1 | e s1]; simpl in H |- *; [ | exact H ].
  rewrite (keeps_download net h updated fetch_blind_updated j s1). exact H.
Qed.

Lemma updated_le_total_run_loop (plugins : catalog) (s : state) :
  updated s <= total s ->
  updated (final (run_loop net h plugins s)) <= total (final (run_loop net h plugins s)).
Proof.
  revert s. induction plugins as [ | [k v] rest IH ]; intros s Hs; simpl; [ exact Hs | ].
  destruct k as [url | ], v as [f | ]; try exact Hs.
  pose proof (total_run_entry url f s) as Ht.
  pose proof (updated_run_entry url f s) as Hu.
  unfold mbind, M_bind.
  destruct (run_entry net h url f s) as [[] s1 | e s1]; simpl in Ht, Hu |- *.
  - apply IH. lia.
  - lia.
Qed.

(** X4.  The script never reports more updated files than files in total:
    however the run ends, the updated counter is at most the total
    counter. *)
Theorem updated_at_most_total (plugins : catalog) (w : world) :
  updated (snd (script net h plugins w)) <= total (snd (script net h plugins w)).
Proof.
  assert (Hmain : updated (final (main net h plugins (initial w)))
                  <= total (final (main net h plugins (initial w)))).
  { destruct (log_setup h) as [e0 | ] eqn:Hlog;
      [ rewrite (main_unlogged net h plugins (initial w) e0 Hlog); simpl; lia | ].
    rewrite (main_logged net h plugins (initial w) Hlog). unfold mbind, M_bind.
    destruct (PluginUpdater__init__ (initial w)) as [[] s0 | e s0] eqn:Hinit.
    - assert (H0 : updated s0 <= total s0).
      { change s0 with (final (Ok tt s0)). rewrite <- Hinit.
        destruct w as [[[m | ] | ] [d | ]]; simpl; lia. }
      destruct plugins as [ | x l ]; [ simpl; exact H0 | ].
      change (run net h (x :: l) s0)
        with ((e ← run_loop net h (x :: l); summarize e) (emit (EvLog INFO msg_running) s0)).
      pose proof (updated_le_total_run_loop (x :: l) (emit (EvLog INFO msg_running) s0) H0)
        as H.
      unfold mbind, M_bind.
      destruct (run_loop net h (x :: l) (emit (EvLog INFO msg_running) s0))
        as [[ | ] s1 | e s1]; exact H.
    - change s0 with (final (@Raise unit e s0)). rewrite <- Hinit.
      destruct w as [[[m | ] | ] [d | ]]; simpl; lia. }
  unfold script.
  destruct (main net h plugins (initial w)) as [[] s1 | e s1]; simpl in Hmain |- *.
  - unfold reclaim. destruct (handler s1); exact Hmain.
  - destruct e; unfold reclaim; simpl; destruct (handler s1); exact Hmain.
Qed.

End Counters.

Section Outcomes.

Variable net : network.
Variable h : host.

(** *** Exit status *)

Lemma interrupt_closed :
  (forall n url, net n url <> NetRaise KeyboardInterrupt) ->
  closed net h (fun _ _ => True) (fun e => e <> KeyboardInterrupt).
Proof.
  intros Hnet. split; try (intros; exact I).
  - intros n url e Hn ->. exact (Hnet n url Hn).
  - intros e He. exact He.
Qed.

Lemma init_raises (w : world) (e : exn) (s : state) :
  PluginUpdater__init__ (initial w) = Raise e s -> e = JSONDecodeError.
Proof.
  destruct w as [[[m | ] | ] [d | ]]; intros H; try discriminate H;
    injection H as <- _; reflexivity.
Qed.

(** X5.  The exit status is 0 or 1, and it is 1 only after a keyboard
    interrupt: when none arrives, at a request or before the constructor,
    the script exits with status 0 whatever else goes wrong (a log file
    that cannot be opened, a damaged ledger, an unreachable source, a
    malformed response, a failed download, a file that cannot be
    written). *)
Theorem exit_status (plugins : catalog) (w : world) :
  (fst (script net h plugins w) = 0%Z \/ fst (script net h plugins w) = 1%Z)
  /\ ((forall n url, net n url <> NetRaise KeyboardInterrupt) ->
      log_setup h <> Some KeyboardInterrupt ->
      fst (script net h plugins w) = 0%Z).
Proof.
  split.
  - unfold script. destruct (main net h plugins (initial w)) as [[] s | e s]; simpl;
      [ left; reflexivity | destruct e; simpl; auto ].
  - intros Hnet Hlog.
    assert (Hmain : forall s, main net h plugins (initial w) <> Raise KeyboardInterrupt s).
    { intros s. destruct (log_setup h) as [e0 | ] eqn:Hl.
      - rewrite (main_unlogged net h plugins (initial w) e0 Hl).
        intros [= -> _]. apply Hlog. reflexivity.
      - rewrite (main_logged net h plugins (initial w) Hl). unfold mbind, M_bind.
        destruct (PluginUpdater__init__ (initial w)) as [[] s0 | e s0] eqn:Hinit.
        + pose proof (carries_run net h _ _ (interrupt_closed Hnet) (fun _ _ => I)
                        plugins s0) as H.
          intros Hr. rewrite Hr in H. destruct H as [_ H]. apply H. reflexivity.
        + apply init_raises in Hinit. subst e. discriminate. }
    unfold script. destruct (main net h plugins (initial w)) as [[] s | e s]; simpl;
      [ reflexivity | ].
    destruct e; try reflexivity. exfalso. exact (Hmain s eq_refl).
Qed.

(** *** The constructor *)

(** X6.  Construction fails only on a damaged ledger file, and then before
    the plugin directory is looked at.  When it succeeds, the ledger in
    memory is what the file held (nothing when there was no file), the file
    now exists and agrees with it, the plugin directory exists with the
    files it had, the counters are zero and no request has been sent.
    Either way the ledger object exists from then on. *)
Theorem constructor_postcondition (w : world) :
  (w_version_file w = Some NotJson ->
     PluginUpdater__init__ (initial w)
       = Raise JSONDecodeError (emit EvReadVersions (set_handler true (initial w))))
  /\ (w_version_file w <> Some NotJson ->
     PluginUpdater__init__ (initial w)
       = Ok tt (State (stored w) 0 0 0 true
                      (Some (ValidJson (stored w)))
                      (Some (default ∅ (w_plugin_dir w)))
                      0
                      (load_events w ++ mkdir_events w))).
Proof.
  destruct w as [[[m | ] | ] [d | ]]; split; intros H; simpl in H;
    try discriminate H; try congruence; reflexivity.
Qed.

(** *** The ledger across runs *)

(** X7.  What a run that opened its log leaves on disk is what the next
    run starts from: the constructor of the next run succeeds and loads
    exactly the ledger the run ended with in memory, however the run
    ended, so that a damaged ledger file does not survive such a run.  A
    run that ends in [run_logging] leaves the disk as it found it. *)
Theorem next_run_loads_flush (plugins : catalog) (w : world) :
  (log_setup h = None ->
   exists s0,
     PluginUpdater__init__ (initial (world_after (snd (script net h plugins w)))) = Ok tt s0
     /\ data s0 = data (final (main net h plugins (initial w)))
     /\ version_file s0 = version_file (snd (script net h plugins w)))
  /\ (forall e, log_setup h = Some e -> world_after (snd (script net h plugins w)) = w).
Proof.
  split.
  - intros Hlog. pose proof (script_version_file net h plugins w Hlog) as Hfile.
    destruct (init_loads (world_after (snd (script net h plugins w))) _ Hfile)
      as (s0 & Hinit & Hdata & Hvf).
    exists s0. split; [ exact Hinit | ]. split; [ exact Hdata | ].
    rewrite Hvf, Hfile. reflexivity.
  - intros e Hlog. unfold script.
    rewrite (main_unlogged net h plugins (initial w) e Hlog).
    destruct w as [vf d]. destruct e; reflexivity.
Qed.

End Outcomes.

Section Ledger.

(** *** The ledger object *)

(** X8.  A version recorded with [set] is what [get] returns for that file
    and leaves the other files alone; it survives a [write] followed by a
    [read], which give back the ledger that was in memory; and writing
    twice leaves the same file as writing once. *)
Theorem ledger_round_trip (key : string) (v : Z) (s : state) :
  (set key v;; get key) s = Ok (Some v) (set_data (<[key := v]> (data s)) s)
  /\ (forall other, other <> key ->
        (set key v;; get other) s
          = Ok (data s !! other) (set_data (<[key := v]> (data s)) s))
  /\ (exists s', (write;; read) s = Ok tt s'
                 /\ data s' = data s
                 /\ version_file s' = Some (ValidJson (data s)))
  /\ (exists s', (set key v;; write;; read;; get key) s = Ok (Some v) s'
                 /\ version_file s' = Some (ValidJson (<[key := v]> (data s))))
  /\ version_file (final ((write;; write) s)) = version_file (final (write s)).
Proof.
  unfold set, get, write, read. run_m. repeat split.
  - rewrite lookup_insert_eq. reflexivity.
  - intros other Hne. rewrite lookup_insert_ne by congruence. reflexivity.
  - eexists. repeat split.
  - eexists. rewrite lookup_insert_eq. repeat split.
Qed.

End Ledger.

Section Sources.

Variable net : network.
Variable h : host.

(** *** A source that cannot be reached *)

(** X9.  When the metadata query of a tracking variant is answered with a
    non-success status, the resolver logs an error naming the catalog URL
    and returns nothing; the ledger and the updated counter are as before,
    nothing is downloaded, and the loop goes on with the next entry. *)
Theorem source_unavailable
    (v : variant) (url : string) (f : files) (s : state) (r : response) :
  v <> Direct ->
  net (requests_made s) (metadata_url v url) = Reply r ->
  ok r = false ->
  resolve net v url f s
    = Ok None (emit (EvLog ERROR (msg_no_data url)) (sent (metadata_url v url) s))
  /\ forall domain later,
       domain_of url = Some domain -> classify domain = v ->
       run_loop net h ((KeyStr url, Files f) :: later) s
         = run_loop net h later
             (emit (EvLog ERROR (msg_no_data url))
                (sent (metadata_url v url) (tallied (file_count f) s))).
Proof.
  intros Hv Hnet Hok.
  assert (Hres : forall s0, requests_made s0 = requests_made s ->
             resolve net v url f s0
             = Ok None (emit (EvLog ERROR (msg_no_data url)) (sent (metadata_url v url) s0))).
  { intros s0 Hreq. destruct v; simpl in *; [ | | | contradiction ].
    - rewrite handle_spigot_cases. simpl. rewrite Hreq, Hnet, Hok. reflexivity.
    - rewrite handle_jenkins_cases. simpl. rewrite Hreq, Hnet, Hok. reflexivity.
    - rewrite handle_github_cases. simpl. rewrite Hreq, Hnet, Hok. reflexivity. }
  split; [ apply Hres; reflexivity | ].
  intros domain later Hdom Hcls.
  cbn [run_loop]. unfold run_entry, add_total. run_m. rewrite Hdom. simpl.
  rewrite Hcls, (Hres (tallied (file_count f) s) eq_refl). reflexivity.
Qed.

(** *** Downloads *)

(** X10.  When the network raises nothing, the plugin directory exists
    and every file of the job can be opened for writing, [download] goes
    through the whole job: it sends one request per entry, counts one
    download per success status, and a refused file does not stop the
    files after it.  The ledger object and the updated counter are not
    touched. *)
Theorem download_accounting (items : job) (s : state) (d : gmap string string) :
  (forall n url e, net n url <> NetRaise e) ->
  (forall url file, In (url, file) items ->
     exists p, open_wb h (plugin_path (str_files file)) = inr p) ->
  plugin_dir s = Some d ->
  exists s',
    download_items net h items s = Ok tt s'
    /\ requests_made s' = requests_made s + length items
    /\ downloaded s' = downloaded s + oks net (requests_made s) items
    /\ data s' = data s
    /\ updated s' = updated s
    /\ is_Some (plugin_dir s').
Proof.
  intros Hnet. revert s d.
  induction items as [ | [url file] rest IH ]; intros s d Hopen Hd.
  - exists s. simpl. repeat split; try lia. rewrite Hd. eauto.
  - assert (Hrest : forall u f, In (u, f) rest ->
               exists p, open_wb h (plugin_path (str_files f)) = inr p).
    { intros u f Hin. apply (Hopen u f). right. exact Hin. }
    cbn [download_items oks].
    unfold requests_get, write_plugin, incr_downloaded, logging. run_m.
    destruct (net (requests_made s) url) as [r | e] eqn:Hn;
      [ | exfalso; exact (Hnet _ _ _ Hn) ].
    simpl. destruct (ok r); simpl.
    + destruct (Hopen url file (or_introl eq_refl)) as [p Hp]. rewrite Hp, Hd.
      destruct p as [entry | | ]; simpl;
        match goal with |- context [download_items net h rest ?s1] =>
          edestruct (IH s1) as (s' & Hrun & Hreq & Hdl & Hdata & Hupd & Hdir);
            [ exact Hrest | simpl; first [ reflexivity | exact Hd ] | ]
        end;
        exists s'; rewrite Hrun; simpl in *; repeat split; try lia; assumption.
    + match goal with |- context [download_items net h rest ?s1] =>
        destruct (IH s1 d Hrest Hd) as (s' & Hrun & Hreq & Hdl & Hdata & Hupd & Hdir)
      end.
      exists s'. rewrite Hrun. simpl in *. repeat split; try lia; assumption.
Qed.

End Sources.

Section Resolution.

Variable net : network.
Variable h : host.

(** *** GitHub resolution *)

(** X11.  When the releases query of a GitHub entry succeeds with release
    [b], change detection reads the ledger at the file name of the first
    pair of the fileSpec only.  If that record equals [b] the resolver
    returns nothing and changes nothing.  If it differs and every index of
    the fileSpec has an asset, then for every pair the job holds exactly
    one entry under the download URL of the asset at that index (mapped to
    the file of the pair when the URLs are distinct), the ledger records
    [b] for the file, and the updated counter has grown by the number of
    pairs. *)
Theorem handle_github_postcondition
    (url : string) (i0 : Z) (f0 : string) (rest : list (Z * string))
    (s : state) (r : response) (d : metadata) (b : Z) :
  let items := (i0, f0) :: rest in
  let s1 := sent (github_api url) s in
  net (requests_made s) (github_api url) = Reply r ->
  ok r = true -> json r = Some d -> md_id d = Some b ->
  (data s !! f0 = Some b ->
     _handle_github net url (FDict items) s = Ok None s1
     /\ data s1 = data s /\ updated s1 = updated s)
  /\ (data s !! f0 <> Some b ->
      forall (l : list (option string)) (urls : list string),
        md_assets d = Some l ->
        Forall2 (fun it u => PyStr.getitem l (fst it) = Some (Some u)) items urls ->
        let result := add_all (combine urls (map snd items)) [] in
        let s2 := recorded_all b (map snd items) s1 in
        _handle_github net url (FDict items) s = Ok (Some result) s2
        /\ (forall u, u ∈ urls -> length (List.filter (has_url u) result) = 1)
        /\ (NoDup urls -> result = combine urls (map FStr (map snd items)))
        /\ (forall file, In file (map snd items) -> data s2 !! file = Some b)
        /\ updated s2 = updated s + length items).
Proof.
  intros items s1 Hnet Hok Hjson Hid.
  assert (Hrun : _handle_github net url (FDict items) s
                 = resolve_changed (github_url d) b (FDict items) s1).
  { rewrite handle_github_cases. simpl. rewrite Hnet, Hok, Hjson, Hid. reflexivity. }
  rewrite Hrun. clear Hrun.
  split; intros Hcmp.
  - subst items. rewrite resolve_changed_dict. change (data s1) with (data s).
    destruct (decide (data s !! f0 = Some b)) as [_ | Hne]; [ | contradiction ].
    repeat split; reflexivity.
  - intros l urls Hart Hrels result s2.
    unfold items at 1. rewrite resolve_changed_dict. change (data s1) with (data s).
    destruct (decide (data s !! f0 = Some b)) as [He | _]; [ contradiction | ].
    fold items.
    assert (Hurls : Forall2 (fun it u => github_url d (fst it) = inr u) items urls).
    { clear -Hart Hrels. induction Hrels as [ | it u its us Hh _ IH ]; constructor.
      - unfold github_url, indexed. rewrite Hart, Hh. reflexivity.
      - exact IH. }
    assert (Hlen : length urls = length (map snd items)).
    { rewrite length_map. symmetry. eapply Forall2_length. exact Hurls. }
    rewrite (resolve_items_ok (github_url d) b items urls [] s1 Hurls).
    fold result. fold s2.
    assert (Hkeys : map fst (combine urls (map snd items)) = urls)
      by (apply map_fst_combine, Hlen).
    split; [ reflexivity | ]. split; [ | split; [ | split ] ].
    + intros u Hu. apply one_entry_per_key.
      * apply add_all_NoDup. constructor.
      * apply add_all_keys_in. left. rewrite Hkeys. exact Hu.
    + intros Hnd. subst result. rewrite add_all_fresh.
      * exact (map_combine_snd FStr urls (map snd items)).
      * rewrite Hkeys. simpl. rewrite app_nil_r. exact Hnd.
    + intros file Hin. apply recorded_all_lookup, Hin.
    + subst s2. rewrite recorded_all_updated, length_map. reflexivity.
Qed.

(** *** Responses and catalog values of the wrong shape *)

(** X12.  The handler is chosen by the URL alone, so a catalog value of the
    other shape reaches it: once the query has succeeded, a dict given to
    the Spigot handler raises a type error, a non-empty string given to the
    Jenkins or GitHub handler raises a type error, and an empty string or
    an empty dict raises [StopIteration].  Nothing has been recorded by
    then. *)
Theorem mismatched_file_spec
    (url : string) (s : state) (r : response) (d : metadata) (b : Z) :
  ok r = true -> json r = Some d ->
  (net (requests_made s) (spiget_latest (resource_of url)) = Reply r ->
   md_id d = Some b ->
   forall items,
     _handle_spigot net url (FDict items) s
       = Raise TypeError (sent (spiget_latest (resource_of url)) s))
  /\ (net (requests_made s) (jenkins_api url) = Reply r ->
      md_number d = Some b ->
      (forall c t, _handle_jenkins net url (FStr (String c t)) s
                   = Raise TypeError (sent (jenkins_api url) s))
      /\ _handle_jenkins net url (FStr EmptyString) s
         = Raise StopIteration (sent (jenkins_api url) s)
      /\ _handle_jenkins net url (FDict []) s
         = Raise StopIteration (sent (jenkins_api url) s))
  /\ (net (requests_made s) (github_api url) = Reply r ->
      md_id d = Some b ->
      (forall c t, _handle_github net url (FStr (String c t)) s
                   = Raise TypeError (sent (github_api url) s))
      /\ _handle_github net url (FStr EmptyString) s
         = Raise StopIteration (sent (github_api url) s)
      /\ _handle_github net url (FDict []) s
         = Raise StopIteration (sent (github_api url) s)).
Proof.
  intros Hok Hjson. repeat split; intros.
  - rewrite handle_spigot_cases. simpl.
    rewrite H, Hok, Hjson, H0. reflexivity.
  - rewrite handle_jenkins_cases. simpl. rewrite H, Hok, Hjson, H0. reflexivity.
  - rewrite handle_jenkins_cases. simpl. rewrite H, Hok, Hjson, H0. reflexivity.
  - rewrite handle_jenkins_cases. simpl. rewrite H, Hok, Hjson, H0. reflexivity.
  - rewrite handle_github_cases. simpl. rewrite H, Hok, Hjson, H0. reflexivity.
  - rewrite handle_github_cases. simpl. rewrite H, Hok, Hjson, H0. reflexivity.
  - rewrite handle_github_cases. simpl. rewrite H, Hok, Hjson, H0. reflexivity.
Qed.

(** X13.  A success status with a body that is not JSON, or without the
    version field, is not treated like an unreachable source: the resolver
    raises (a JSON decode error, a key error), nothing is logged by it, and
    the error ends the loop of [run] at this entry. *)
Theorem malformed_metadata
    (v : variant) (url : string) (f : files) (s : state) (r : response) (e : exn) :
  v <> Direct ->
  net (requests_made s) (metadata_url v url) = Reply r ->
  ok r = true ->
  (json r = None /\ e = JSONDecodeError
   \/ exists d, json r = Some d /\ version_of v d = None /\ e = KeyError) ->
  resolve net v url f s = Raise e (sent (metadata_url v url) s)
  /\ forall domain later,
       domain_of url = Some domain -> classify domain = v ->
       run_loop net h ((KeyStr url, Files f) :: later) s
         = Raise e (sent (metadata_url v url) (tallied (file_count f) s)).
Proof.
  intros Hv Hnet Hok Hbody.
  assert (Hres : forall s0, requests_made s0 = requests_made s ->
             resolve net v url f s0 = Raise e (sent (metadata_url v url) s0)).
  { intros s0 Hreq.
    destruct v; simpl in *; [ | | | contradiction ].
    - rewrite handle_spigot_cases. simpl. rewrite Hreq, Hnet, Hok.
      destruct Hbody as [[-> ->] | (d & -> & -> & ->)]; reflexivity.
    - rewrite handle_jenkins_cases. simpl. rewrite Hreq, Hnet, Hok.
      destruct Hbody as [[-> ->] | (d & -> & -> & ->)]; reflexivity.
    - rewrite handle_github_cases. simpl. rewrite Hreq, Hnet, Hok.
      destruct Hbody as [[-> ->] | (d & -> & -> & ->)]; reflexivity. }
  split; [ apply Hres; reflexivity | ].
  intros domain later Hdom Hcls.
  apply run_loop_raise with (domain := domain); [ exact Hdom | ].
  rewrite Hcls. apply Hres. reflexivity.
Qed.

End Resolution.

Section Detection.

Variable net : network.

(** *** What a resolution leaves behind *)

Lemma resolve_changed_none (direct_url : Z -> lookup_result string) (v : Z)
    (f : files) (s s' : state) :
  resolve_changed direct_url v f s = Ok None s' -> s' = s.
Proof.
  destruct f as [[ | c t] | [ | [i0 f0] rest]]; try discriminate.
  rewrite resolve_changed_dict.
  destruct (decide (data s !! f0 = Some v)); [ intros [= <-]; reflexivity | ].
  destruct (resolve_items direct_url v ((i0, f0) :: rest) [] s); discriminate.
Qed.

(** A loop that raises has recorded the version for the files before the
    pair whose index did not resolve. *)
Lemma resolve_items_raise_state (direct_url : Z -> lookup_result string) (v : Z)
    (items : list (Z * string)) (result : job) (s s' : state) (e : exn) :
  resolve_items direct_url v items result s = Raise e s' ->
  exists k, k < length items /\ s' = recorded_all v (firstn k (map snd items)) s.
Proof.
  revert result s. induction items as [ | [i file] rest IH ]; intros result s; simpl.
  - discriminate.
  - destruct (direct_url i) as [e0 | u]; run_m.
    + intros [= _ <-]. exists 0. split; [ lia | reflexivity ].
    + unfold set, incr_updated. run_m. intros H. apply IH in H as (k & Hk & ->).
      exists (S k). split; [ lia | reflexivity ].
Qed.

(** The three ways change detection ends. *)
Lemma resolve_changed_outcomes (direct_url : Z -> lookup_result string) (ver : Z)
    (f : files) (s : state) :
  match resolve_changed direct_url ver f s with
  | Ok None s1 =>
      s1 = s /\ exists first, head (names f) = Some first /\ data s !! first = Some ver
  | Ok (Some j) s1 =>
      s1 = recorded_all ver (names f) s
      /\ exists first, head (names f) = Some first /\ data s !! first <> Some ver
  | Raise e s1 =>
      exists k, s1 = recorded_all ver (firstn k (names f)) s
                /\ (names f <> [] -> k < length (names f))
  end.
Proof.
  destruct f as [[ | c t] | [ | [i0 f0] rest]].
  - exists 0. split; [ reflexivity | simpl; lia ].
  - exists 0. split; [ reflexivity | simpl; lia ].
  - exists 0. split; [ reflexivity | intros H; contradiction H; reflexivity ].
  - rewrite resolve_changed_dict.
    destruct (decide (data s !! f0 = Some ver)) as [He | Hne].
    + split; [ reflexivity | ]. exists f0. split; [ reflexivity | exact He ].
    + destruct (resolve_items direct_url ver ((i0, f0) :: rest) [] s) as [j s' | e s'] eqn:Hr.
      * split; [ eapply resolve_items_state; exact Hr | ].
        exists f0. split; [ reflexivity | exact Hne ].
      * apply resolve_items_raise_state in Hr as (k & Hk & ->).
        exists k. split; [ reflexivity | ]. intros _.
        cbn [names]. rewrite length_map. exact Hk.
Qed.

(** X14.  However a tracking resolver ends, it has sent one request, the
    metadata query.  When it returns no job, either the query was refused
    and the error is logged, or it was answered with the version the
    ledger holds for the first file of the entry; nothing else has
    changed.  When it returns a job, the query was answered with a
    version the ledger did not hold for the first file, and that version
    is now recorded for every file of the entry, each counted: the ledger
    has changed.  When it raises, it has recorded the version of the
    answer for the files before the one it stopped at, and for nothing
    when the query itself failed: a raising resolver can leave the ledger
    changed with no job returned. *)
Theorem resolve_outcomes (v : variant) (url : string) (f : files) (s : state) :
  v <> Direct ->
  let api := metadata_url v url in
  let answered (ver : Z) :=
    exists r d, net (requests_made s) api = Reply r /\ ok r = true
                /\ json r = Some d /\ version_of v d = Some ver in
  match resolve net v url f s with
  | Ok None s1 =>
      (s1 = emit (EvLog ERROR (msg_no_data url)) (sent api s)
       /\ exists r, net (requests_made s) api = Reply r /\ ok r = false)
      \/ (s1 = sent api s
          /\ exists ver first, answered ver /\ head (names f) = Some first
                               /\ data s !! first = Some ver)
  | Ok (Some j) s1 =>
      exists ver first,
        answered ver
        /\ head (names f) = Some first
        /\ data s !! first <> Some ver
        /\ s1 = recorded_all ver (names f) (sent api s)
        /\ data s1 !! first = Some ver
        /\ updated s1 = updated s + length (names f)
  | Raise e s1 =>
      exists ver k,
        s1 = recorded_all ver (firstn k (names f)) (sent api s)
        /\ (names f <> [] -> k < length (names f))
        /\ (0 < k -> answered ver)
  end.
Proof.
  intros Hv api answered.
  assert (Hchanged : forall direct_url r d ver,
            net (requests_made s) api = Reply r -> ok r = true -> json r = Some d ->
            version_of v d = Some ver ->
            match resolve_changed direct_url ver f (sent api s) with
            | Ok None s1 =>
                (s1 = emit (EvLog ERROR (msg_no_data url)) (sent api s)
                 /\ exists r, net (requests_made s) api = Reply r /\ ok r = false)
                \/ (s1 = sent api s
                    /\ exists ver first, answered ver /\ head (names f) = Some first
                                         /\ data s !! first = Some ver)
            | Ok (Some j) s1 =>
                exists ver first,
                  answered ver
                  /\ head (names f) = Some first
                  /\ data s !! first <> Some ver
                  /\ s1 = recorded_all ver (names f) (sent api s)
                  /\ data s1 !! first = Some ver
                  /\ updated s1 = updated s + length (names f)
            | Raise e s1 =>
                exists ver k,
                  s1 = recorded_all ver (firstn k (names f)) (sent api s)
                  /\ (names f <> [] -> k < length (names f))
                  /\ (0 < k -> answered ver)
            end).
  { intros direct_url r d ver Hnet Hok Hjson Hver.
    assert (Hans : answered ver) by (exists r, d; repeat split; assumption).
    pose proof (resolve_changed_outcomes direct_url ver f (sent api s)) as H.
    destruct (resolve_changed direct_url ver f (sent api s)) as [[j | ] s1 | e s1].
    - destruct H as (-> & first & Hfirst & Hne).
      exists ver, first. repeat split; try assumption.
      + apply recorded_all_lookup. destruct (names f); [ discriminate | ].
        injection Hfirst as <-. left. reflexivity.
      + rewrite recorded_all_updated. reflexivity.
    - destruct H as (-> & first & Hfirst & He).
      right. split; [ reflexivity | ]. exists ver, first. repeat split; assumption.
    - destruct H as (k & -> & Hk). exists ver, k.
      split; [ reflexivity | ]. split; [ exact Hk | intros _; exact Hans ]. }
  assert (Hfail : exists ver k,
            sent api s = recorded_all ver (firstn k (names f)) (sent api s)
            /\ (names f <> [] -> k < length (names f))
            /\ (0 < k -> answered ver)).
  { exists 0%Z, 0. repeat split; [ | lia ].
    intros Hn. destruct (names f); [ contradiction | simpl; lia ]. }
  destruct v; simpl; [ | | | contradiction ].
  - rewrite handle_spigot_cases. simpl.
    change (spiget_latest (resource_of url)) with api.
    case_eq (net (requests_made s) api); [ intros r Hnet | intros; exact Hfail ].
    case_eq (ok r); intros Hok; [ | left; split; [ reflexivity | exists r; auto ] ].
    case_eq (json r); [ intros d Hjson | intros; exact Hfail ].
    case_eq (md_id d); [ intros ver Hver | intros; exact Hfail ].
    assert (Hans : answered ver) by (exists r, d; repeat split; assumption).
    destruct f as [name | items]; [ | exact Hfail ].
    destruct (decide (data s !! name = Some ver)) as [He | Hne].
    + right. split; [ reflexivity | ]. exists ver, name. repeat split; assumption.
    + exists ver, name. repeat split; try assumption.
      * simpl. apply lookup_insert_eq.
      * simpl. lia.
  - rewrite handle_jenkins_cases. simpl.
    change (jenkins_api url) with api.
    case_eq (net (requests_made s) api); [ intros r Hnet | intros; exact Hfail ].
    case_eq (ok r); intros Hok; [ | left; split; [ reflexivity | exists r; auto ] ].
    case_eq (json r); [ intros d Hjson | intros; exact Hfail ].
    case_eq (md_number d); [ intros ver Hver | intros; exact Hfail ].
    pose proof (Hchanged (jenkins_url url d) r d ver Hnet Hok Hjson Hver) as H.
    rewrite Hnet in H. exact H.
  - rewrite handle_github_cases. simpl.
    change (github_api url) with api.
    case_eq (net (requests_made s) api); [ intros r Hnet | intros; exact Hfail ].
    case_eq (ok r); intros Hok; [ | left; split; [ reflexivity | exists r; auto ] ].
    case_eq (json r); [ intros d Hjson | intros; exact Hfail ].
    case_eq (md_id d); [ intros ver Hver | intros; exact Hfail ].
    pose proof (Hchanged (github_url d) r d ver Hnet Hok Hjson Hver) as H.
    rewrite Hnet in H. exact H.
Qed.

Lemma resolve_changed_again (direct_url : Z -> lookup_result string) (v : Z)
    (f : files) (s s1 s2 : state) (j : job) :
  resolve_changed direct_url v f s = Ok (Some j) s1 ->
  data s2 = data s1 ->
  resolve_changed direct_url v f s2 = Ok None s2.
Proof.
  intros H Hdata. pose proof (resolve_changed_records _ _ _ _ _ _ H) as Hs1.
  destruct f as [[ | c t] | [ | [i0 f0] rest]]; try discriminate.
  rewrite resolve_changed_dict.
  destruct (decide (data s2 !! f0 = Some v)) as [_ | Hne]; [ reflexivity | ].
  exfalso. apply Hne. rewrite Hdata, Hs1.
  apply recorded_all_lookup. simpl. left. reflexivity.
Qed.

(** X15.  Detection is idempotent: once a tracking resolver has returned a
    job, resolving the same entry again against the same answer finds
    nothing to do.  It returns no job and leaves the ledger and the
    counters as the first resolution left them. *)
Theorem resolve_again
    (v : variant) (url : string) (f : files) (s s1 : state) (j : job) :
  v <> Direct ->
  resolve net v url f s = Ok (Some j) s1 ->
  net (requests_made s1) (metadata_url v url) = net (requests_made s) (metadata_url v url) ->
  resolve net v url f s1 = Ok None (sent (metadata_url v url) s1).
Proof.
  intros Hv. destruct v; simpl; [ | | | contradiction ].
  - rewrite !handle_spigot_cases. simpl. intros H Hsame. rewrite Hsame.
    destruct (net (requests_made s) _) as [r | e]; [ | discriminate ].
    destruct (ok r); [ | discriminate ].
    destruct (json r) as [d | ]; [ | discriminate ].
    destruct (md_id d) as [ver | ]; [ | discriminate ].
    destruct f as [name | items]; [ | discriminate ].
    destruct (decide (data s !! name = Some ver)); [ discriminate | ].
    injection H as _ <-.
    destruct (decide (data (recorded name ver (sent (spiget_latest (resource_of url)) s))
                      !! name = Some ver)) as [_ | Hne]; [ reflexivity | ].
    exfalso. apply Hne. simpl. apply lookup_insert_eq.
  - rewrite !handle_jenkins_cases. simpl. intros H Hsame. rewrite Hsame.
    destruct (net (requests_made s) _) as [r | e]; [ | discriminate ].
    destruct (ok r); [ | discriminate ].
    destruct (json r) as [d | ]; [ | discriminate ].
    destruct (md_number d) as [ver | ]; [ | discriminate ].
    eapply resolve_changed_again; [ exact H | reflexivity ].
  - rewrite !handle_github_cases. simpl. intros H Hsame. rewrite Hsame.
    destruct (net (requests_made s) _) as [r | e]; [ | discriminate ].
    destruct (ok r); [ | discriminate ].
    destruct (json r) as [d | ]; [ | discriminate ].
    destruct (md_id d) as [ver | ]; [ | discriminate ].
    eapply resolve_changed_again; [ exact H | reflexivity ].
Qed.

End Detection.

Section Urls.

Variable net : network.
Variable h : host.

(** *** Splitting a URL *)

Lemma split_nonempty (sep : ascii) (s : string) : PyStr.split sep s <> [].
Proof.
  destruct s as [ | c t ]; simpl; [ discriminate | ].
  destruct (Ascii.eqb c sep); [ discriminate | ].
  destruct (PyStr.split sep t); discriminate.
Qed.

Lemma split_append (sep : ascii) (a b : string) :
  PyStr.split sep (a ++ String sep b)%string = PyStr.split sep a ++ PyStr.split sep b.
Proof.
  induction a as [ | c a IH ]; simpl.
  - rewrite Ascii.eqb_refl. reflexivity.
  - destruct (Ascii.eqb c sep); [ rewrite IH; reflexivity | ].
    rewrite IH. pose proof (split_nonempty sep a) as Hne.
    destruct (PyStr.split sep a) as [ | x r ]; [ contradiction | reflexivity ].
Qed.

Lemma split_whole (sep : ascii) (s : string) :
  occurrences sep s = 0 -> PyStr.split sep s = [s].
Proof.
  induction s as [ | c t IH ]; simpl; [ reflexivity | ].
  destruct (Ascii.eqb c sep); [ discriminate | ].
  intros H. rewrite (IH H). reflexivity.
Qed.

Lemma split_length (sep : ascii) (s : string) :
  length (PyStr.split sep s) = S (occurrences sep s).
Proof.
  induction s as [ | c t IH ]; simpl; [ reflexivity | ].
  destruct (Ascii.eqb c sep); simpl; [ rewrite IH; reflexivity | ].
  pose proof (split_nonempty sep t) as Hne.
  destruct (PyStr.split sep t) as [ | x r ]; [ contradiction | exact IH ].
Qed.

Lemma lower_append (a b : string) :
  PyStr.lower (a ++ b)%string = (PyStr.lower a ++ PyStr.lower b)%string.
Proof. induction a as [ | c a IH ]; simpl; [ | rewrite IH ]; reflexivity. Qed.

Lemma lower_slash (c : ascii) : Ascii.eqb (PyStr.lower_char c) "/" = Ascii.eqb c "/".
Proof. destruct c as [[] [] [] [] [] [] [] []]; reflexivity. Qed.

Lemma lower_occurrences (s : string) :
  occurrences "/" (PyStr.lower s) = occurrences "/" s.
Proof.
  induction s as [ | c t IH ]; simpl; [ reflexivity | ].
  rewrite lower_slash, IH. reflexivity.
Qed.

Lemma split_url (scheme rest : string) :
  occurrences "/" scheme = 0 ->
  PyStr.split "/" (PyStr.lower (scheme ++ "//" ++ rest)%string)
  = PyStr.lower scheme :: EmptyString :: PyStr.split "/" (PyStr.lower rest).
Proof.
  intros Hs. rewrite lower_append.
  change (PyStr.lower ("//" ++ rest)%string)
    with (String "/" (String "/" (PyStr.lower rest))).
  rewrite split_append, split_whole by (rewrite lower_occurrences; exact Hs).
  reflexivity.
Qed.

(** X16.  For a URL made of a scheme, two slashes and a host, with or
    without a path after it, the domain [run] dispatches on is the host in
    lower case (with whatever user or port it carries); the path and the
    scheme play no part. *)
Theorem domain_of_url (scheme host path : string) :
  occurrences "/" scheme = 0 ->
  occurrences "/" host = 0 ->
  domain_of (scheme ++ "//" ++ host)%string = Some (PyStr.lower host)
  /\ domain_of (scheme ++ "//" ++ host ++ "/" ++ path)%string = Some (PyStr.lower host).
Proof.
  intros Hs Hh. unfold domain_of.
  assert (Hlh : PyStr.split "/" (PyStr.lower host) = [PyStr.lower host])
    by (apply split_whole; rewrite lower_occurrences; exact Hh).
  split.
  - rewrite (split_url _ _ Hs), Hlh. reflexivity.
  - rewrite (split_url _ _ Hs), lower_append.
    change (PyStr.lower ("/" ++ path)%string) with (String "/" (PyStr.lower path)).
    rewrite split_append, Hlh. reflexivity.
Qed.

(** X17.  A URL has a domain exactly when it holds at least two slashes.
    With fewer, [run] counts the files of the entry and then raises an
    index error, before any request is sent. *)
Theorem url_without_domain (url : string) (f : files) (s : state) :
  (domain_of url = None <-> occurrences "/" url < 2)
  /\ (occurrences "/" url < 2 ->
      run_entry net h url f s = Raise IndexError (tallied (file_count f) s)).
Proof.
  assert (Hiff : domain_of url = None <-> occurrences "/" url < 2).
  { unfold domain_of. rewrite nth_error_None, split_length, lower_occurrences. lia. }
  split; [ exact Hiff | ].
  intros Hlt. apply Hiff in Hlt.
  unfold run_entry, add_total. run_m. rewrite Hlt. reflexivity.
Qed.

(** X18.  The resource identifier the Spigot handler asks for is the text
    after the last dot of the catalog URL, and the whole URL when it holds
    no dot. *)
Theorem resource_of_url (front id : string) :
  (occurrences "." id = 0 -> resource_of (front ++ "." ++ id)%string = id)
  /\ (occurrences "." id = 0 -> resource_of id = id).
Proof.
  unfold resource_of. split; intros Hid.
  - change (front ++ "." ++ id)%string with (front ++ String "." id)%string.
    rewrite split_append, (split_whole _ _ Hid).
    apply List.last_last.
  - rewrite (split_whole _ _ Hid). reflexivity.
Qed.

(** *** Rewriting a GitHub URL *)

Lemma append_assoc (a b c : string) : ((a ++ b) ++ c = a ++ (b ++ c))%string.
Proof.
  induction a as [ | x a IH ]; [ reflexivity | ].
  change (String x (((a ++ b) ++ c))%string = String x (a ++ (b ++ c))%string).
  rewrite IH. reflexivity.
Qed.

Lemma prefix_append (a b : string) : String.prefix a (a ++ b)%string = true.
Proof.
  induction a as [ | c a IH ]; simpl.
  - destruct b; reflexivity.
  - destruct (ascii_dec c c) as [_ | Hne]; [ exact IH | contradiction ].
Qed.

Lemma replace_absent (old new s : string) :
  PyStr.contains old s = false -> PyStr.replace_from old new 0 s = s.
Proof.
  induction s as [ | c t IH ]; [ reflexivity | ].
  intros H. cbn [PyStr.contains] in H. apply orb_false_iff in H as [Hp Ht].
  cbn [PyStr.replace_from]. rewrite Hp, (IH Ht). reflexivity.
Qed.

Lemma replace_before (new front rest : string) :
  occurrences "g" front = 0 ->
  PyStr.replace_from "github.com" new 0 (front ++ rest)%string
  = (front ++ PyStr.replace_from "github.com" new 0 rest)%string.
Proof.
  induction front as [ | c t IH ]; [ reflexivity | ].
  cbn [occurrences]. destruct (Ascii.eqb_spec c "g") as [-> | Hne]; [ discriminate | ].
  intros H.
  change (String c t ++ rest)%string with (String c (t ++ rest)%string).
  cbn [PyStr.replace_from String.prefix].
  destruct (ascii_dec "g" c) as [<- | _]; [ contradiction | ].
  rewrite (IH H). reflexivity.
Qed.

(** X19.  The releases query of the GitHub handler is the catalog URL with
    its host [github.com] turned into [api.github.com/repos], followed by
    [/releases/latest]: so it is for a URL whose text before the host holds
    no letter g and whose text after it does not hold [github.com] again. *)
Theorem github_api_url (front path : string) :
  occurrences "g" front = 0 ->
  PyStr.contains "github.com" path = false ->
  github_api (front ++ "github.com" ++ path)%string
  = (front ++ "api.github.com/repos" ++ path ++ "/releases/latest")%string.
Proof.
  intros Hf Hp. unfold github_api, PyStr.replace.
  rewrite (replace_before _ _ _ Hf).
  change (PyStr.replace_from "github.com" "api.github.com/repos" 0 ("github.com" ++ path))
    with (if String.prefix "github.com" ("github.com" ++ path)
          then ("api.github.com/repos"
                ++ PyStr.replace_from "github.com" "api.github.com/repos" 0 path)%string
          else String "g" (PyStr.replace_from "github.com" "api.github.com/repos" 0
                             ("ithub.com" ++ path)))%string.
  rewrite prefix_append, (replace_absent _ _ _ Hp).
  rewrite (append_assoc front), (append_assoc "api.github.com/repos"). reflexivity.
Qed.

End Urls.

Section Fetching.

Variable net : network.
Variable h : host.

(** *** One file *)

Lemma open_wb_directory (name : string) :
  name = "" \/ name = "." \/ name = ".." ->
  open_wb h (plugin_path name) = inl OSError.
Proof. intros [-> | [-> | ->]]; reflexivity. Qed.

(** X20.  Downloading a one-entry job sends one request to its URL.  On a
    success status the path made of the plugin directory and the file
    name is opened for writing.  When it opens, the body is written where
    the path leads and one download is counted: in the plugin directory
    the body replaces what the file held and the other files are left
    alone; on the ledger file it replaces the ledger on disk.  When it
    does not open, as for a name that is empty, a dot or two dots, the
    exception ends the download with nothing written or counted.  On any
    other status an error naming the file is logged and nothing is
    written. *)
Theorem download_one
    (url : string) (file : files) (s : state) (r : response) (d : gmap string string) :
  let path := plugin_path (str_files file) in
  let one := Some [(url, file)] in
  net (requests_made s) url = Reply r ->
  plugin_dir s = Some d ->
  (ok r = true ->
     (forall p, open_wb h path = inr p ->
        download net h one s = Ok tt (fetched h path (content r) p d (sent url s)))
     /\ (forall entry, open_wb h path = inr (InPlugins entry) ->
          exists d', plugin_dir (final (download net h one s)) = Some d'
                     /\ d' !! entry = Some (content r)
                     /\ (forall other, other <> entry -> d' !! other = d !! other)
                     /\ version_file (final (download net h one s)) = version_file s)
     /\ (open_wb h path = inr OnLedger ->
          version_file (final (download net h one s)) = Some (decode h (content r))
          /\ plugin_dir (final (download net h one s)) = Some d)
     /\ (forall e, open_wb h path = inl e ->
          download net h one s = Raise e (sent url s))
     /\ (str_files file = "" \/ str_files file = "." \/ str_files file = ".." ->
          download net h one s = Raise OSError (sent url s)))
  /\ (ok r = false ->
     download net h one s
       = Ok tt (emit (EvLog ERROR (msg_download_failed file)) (sent url s))).
Proof.
  intros path one Hnet Hd.
  assert (Hrun : ok r = true ->
            download net h one s
            = match open_wb h path with
              | inl e => Raise e (sent url s)
              | inr p => Ok tt (fetched h path (content r) p d (sent url s))
              end).
  { intros Hok. simpl. unfold requests_get, write_plugin, incr_downloaded. run_m.
    rewrite Hnet. simpl. rewrite Hok. simpl. fold path.
    destruct (open_wb h path) as [e | p]; [ reflexivity | ].
    rewrite Hd. destruct p; reflexivity. }
  split; intros Hok.
  - specialize (Hrun Hok). split; [ | split; [ | split; [ | split ] ] ].
    + intros p Hp. rewrite Hrun, Hp. reflexivity.
    + intros entry Hp. rewrite Hrun, Hp. simpl.
      eexists. split; [ reflexivity | ]. split; [ apply lookup_insert_eq | ].
      split; [ | reflexivity ].
      intros other Hne. apply lookup_insert_ne. congruence.
    + intros Hp. rewrite Hrun, Hp. simpl. split; [ reflexivity | exact Hd ].
    + intros e Hp. rewrite Hrun, Hp. reflexivity.
    + intros Hname. rewrite Hrun. unfold path.
      rewrite (open_wb_directory _ Hname). reflexivity.
  - simpl. unfold requests_get, logging. run_m. rewrite Hnet. simpl. rewrite Hok.
    reflexivity.
Qed.

End Fetching.

Section Indices.

(** *** The indices of a fileSpec *)

Lemma getitem_some {A : Type} (l : list A) (i : Z) :
  is_Some (PyStr.getitem l i)
  <-> (- Z.of_nat (length l) <= i < Z.of_nat (length l))%Z.
Proof.
  unfold PyStr.getitem.
  destruct (Z.leb_spec 0 i) as [Hpos | Hneg].
  - rewrite <- not_eq_None_Some, nth_error_None. lia.
  - destruct (Z.leb_spec (- Z.of_nat (length l)) i) as [Hin | Hout].
    + rewrite <- not_eq_None_Some, nth_error_None. lia.
    + split; [ intros [x Hx]; discriminate Hx | lia ].
Qed.

(** X21.  An index of a fileSpec selects an element of the returned list
    exactly when it lies between minus the length of the list and the
    length less one: indices below zero count from the end, so an index
    and the same index less the length select the same element. *)
Theorem artifact_index_range (l : list (option string)) (i : Z) :
  List.Forall is_Some l ->
  ((exists u, indexed (Some l) i = inr u)
   <-> (- Z.of_nat (length l) <= i < Z.of_nat (length l))%Z)
  /\ ((0 <= i < Z.of_nat (length l))%Z ->
      indexed (Some l) (i - Z.of_nat (length l)) = indexed (Some l) i).
Proof.
  intros Hl. split.
  - rewrite <- getitem_some. unfold indexed. split.
    + intros [u Hu]. destruct (PyStr.getitem l i) as [x | ]; [ eauto | discriminate ].
    + intros [x Hx]. rewrite Hx. destruct x as [u | ]; [ eauto | ].
      apply getitem_In in Hx. rewrite List.Forall_forall in Hl.
      destruct (Hl None Hx) as [y Hy]. discriminate.
  - intros Hi. unfold indexed, PyStr.getitem.
    destruct (Z.leb_spec 0 (i - Z.of_nat (length l))) as [Hpos | _]; [ lia | ].
    destruct (Z.leb_spec (- Z.of_nat (length l)) (i - Z.of_nat (length l)))
      as [_ | Hout]; [ | lia ].
    destruct (Z.leb_spec 0 i) as [_ | Hneg]; [ | lia ].
    replace (Z.of_nat (length l) + (i - Z.of_nat (length l)))%Z with i by lia.
    reflexivity.
Qed.

End Indices.

(** ** The further properties at concrete inputs *)

(** Two single-file entries, both sources unavailable: the loop goes
    through the catalog and counts two files. *)
Lemma total_counts_catalog_witness :
  exists s',
    run_loop Examples.unavailable Examples.rooted Examples.two_plugins Examples.started
    = Ok Exhausted s'
    /\ total s' = 2.
Proof.
  eexists. split; [ reflexivity | ].
  apply (proj2 (total_counts_catalog Examples.unavailable Examples.rooted
                  Examples.two_plugins Examples.started)).
  reflexivity.
Defined.

(** A log file that cannot be opened, and a damaged ledger with a log file
    that can: without an interrupt the script exits with status 0. *)
Lemma exit_status_witness :
  fst (script Examples.unavailable Examples.unwritable_log Examples.two_plugins
         Examples.installed) = 0%Z
  /\ fst (script Examples.unavailable Examples.rooted Examples.two_plugins
            Examples.damaged) = 0%Z.
Proof.
  split.
  - apply (proj2 (exit_status Examples.unavailable Examples.unwritable_log
                    Examples.two_plugins Examples.installed)).
    + intros n url. discriminate.
    + discriminate.
  - apply (proj2 (exit_status Examples.unavailable Examples.rooted
                    Examples.two_plugins Examples.damaged)).
    + intros n url. discriminate.
    + discriminate.
Defined.

(** A damaged ledger does not survive a run that opened its log: the next
    constructor loads the empty ledger the run ended with.  It survives a
    run that could not open its log. *)
Lemma next_run_loads_flush_witness :
  (exists s0,
     PluginUpdater__init__
       (initial (world_after (snd (script Examples.unavailable Examples.rooted
                                     Examples.two_plugins Examples.damaged))))
     = Ok tt s0
     /\ data s0 = ∅)
  /\ world_after (snd (script Examples.unavailable Examples.unwritable_log
                         Examples.two_plugins Examples.damaged))
     = Examples.damaged.
Proof.
  split.
  - destruct (proj1 (next_run_loads_flush Examples.unavailable Examples.rooted
                       Examples.two_plugins Examples.damaged) eq_refl)
      as (s0 & Hinit & Hdata & _).
    exists s0. split; [ exact Hinit | ]. rewrite Hdata. reflexivity.
  - apply (proj2 (next_run_loads_flush Examples.unavailable Examples.unwritable_log
                    Examples.two_plugins Examples.damaged) OSError).
    reflexivity.
Defined.

(** The constructor on a first run. *)
Lemma constructor_postcondition_witness :
  PluginUpdater__init__ (initial Examples.fresh) = Ok tt Examples.started.
Proof.
  apply (proj2 (constructor_postcondition Examples.fresh)). discriminate.
Defined.

(** Spiget is unavailable: the entry is skipped with an error in the log. *)
Lemma source_unavailable_witness :
  resolve Examples.unavailable Marketplace Examples.luckperms (FStr "LuckPerms.jar")
    Examples.loaded
  = Ok None (emit (EvLog ERROR (msg_no_data Examples.luckperms))
               (sent (spiget_latest "28140") Examples.loaded)).
Proof.
  apply (source_unavailable Examples.unavailable Examples.rooted Marketplace
           Examples.luckperms (FStr "LuckPerms.jar") Examples.loaded
           (Response false None ""));
    [ discriminate | reflexivity | reflexivity ].
Defined.

(** A job of two files, both served. *)
Lemma download_accounting_witness :
  exists s',
    download_items (Examples.spiget 1050) Examples.rooted
      [(spiget_download "28140" 1050, FStr "LuckPerms.jar");
       (Examples.worldguard, FStr "WorldGuard.jar")] Examples.loaded = Ok tt s'
    /\ requests_made s' = 2
    /\ downloaded s' = 2.
Proof.
  destruct (download_accounting (Examples.spiget 1050) Examples.rooted
              [(spiget_download "28140" 1050, FStr "LuckPerms.jar");
               (Examples.worldguard, FStr "WorldGuard.jar")] Examples.loaded ∅)
    as (s' & Hrun & Hreq & Hdl & _).
  - intros n url e. unfold Examples.spiget.
    destruct (String.eqb url (spiget_latest "28140")); discriminate.
  - intros url file [H | [H | []]]; injection H as <- <-; eexists; reflexivity.
  - reflexivity.
  - exists s'. split; [ exact Hrun | ]. split; [ exact Hreq | exact Hdl ].
Defined.

(** Release 7 with one asset on a first run. *)
Lemma handle_github_postcondition_witness :
  _handle_github Examples.release_7 Examples.github (FDict [(0%Z, "TAB.jar")])
    Examples.started
  = Ok (Some [("https://dl/TAB.jar", FStr "TAB.jar")])
       (recorded_all 7 ["TAB.jar"] (sent (github_api Examples.github) Examples.started)).
Proof.
  pose proof (handle_github_postcondition Examples.release_7 Examples.github
                0%Z "TAB.jar" [] Examples.started
                (Response true
                   (Some (Metadata (Some 7%Z) None None (Some [Some "https://dl/TAB.jar"]))) "")
                (Metadata (Some 7%Z) None None (Some [Some "https://dl/TAB.jar"]))
                7%Z eq_refl eq_refl eq_refl eq_refl) as [_ H].
  assert (Hne : data Examples.started !! "TAB.jar" <> Some 7%Z) by (vm_compute; discriminate).
  destruct (H Hne [Some "https://dl/TAB.jar"] ["https://dl/TAB.jar"] eq_refl)
    as (Hrun & _).
  { repeat constructor. }
  exact Hrun.
Defined.

(** A Spigot URL with a dict as its catalog value. *)
Lemma mismatched_file_spec_witness :
  _handle_spigot (Examples.spiget 1000) Examples.luckperms (FDict Examples.two_files)
    Examples.loaded
  = Raise TypeError (sent (spiget_latest "28140") Examples.loaded).
Proof.
  apply (mismatched_file_spec (Examples.spiget 1000) Examples.luckperms Examples.loaded
           (Response true (Some (Metadata (Some 1000%Z) None None None)) "")
           (Metadata (Some 1000%Z) None None None) 1000%Z eq_refl eq_refl);
    reflexivity.
Defined.

(** A Jenkins query answered with a body that is not JSON. *)
Lemma malformed_metadata_witness :
  resolve (Examples.spiget 1000) ContinuousIntegration Examples.jenkins
    (FDict Examples.two_files) Examples.started
  = Raise JSONDecodeError (sent (jenkins_api Examples.jenkins) Examples.started).
Proof.
  apply (malformed_metadata (Examples.spiget 1000) Examples.rooted ContinuousIntegration
           Examples.jenkins (FDict Examples.two_files) Examples.started
           (Response true None "jar") JSONDecodeError);
    [ discriminate | reflexivity | reflexivity | left; split; reflexivity ].
Defined.

(** Version 1050 against a ledger that holds 1000: the job comes back
    with 1050 recorded.  Index 2 against a build with two artifacts: the
    resolver raises with build 42 recorded for the first file and no
    job. *)
Lemma resolve_outcomes_witness :
  (exists ver,
     recorded "LuckPerms.jar" 1050 (sent (spiget_latest "28140") Examples.loaded)
     = recorded_all ver ["LuckPerms.jar"] (sent (spiget_latest "28140") Examples.loaded)
     /\ data Examples.loaded !! "LuckPerms.jar" <> Some ver)
  /\ (exists ver k,
        final (resolve Examples.build_42 ContinuousIntegration Examples.jenkins
                 (FDict [(0%Z, "A.jar"); (2%Z, "B.jar")]) Examples.started)
        = recorded_all ver (firstn k ["A.jar"; "B.jar"])
            (sent (jenkins_api Examples.jenkins) Examples.started)
        /\ k < 2)
  /\ data (final (resolve Examples.build_42 ContinuousIntegration Examples.jenkins
                    (FDict [(0%Z, "A.jar"); (2%Z, "B.jar")]) Examples.started))
       !! "A.jar" = Some 42%Z.
Proof.
  split; [ | split; [ | reflexivity ] ].
  - pose proof (resolve_outcomes (Examples.spiget 1050) Marketplace Examples.luckperms
                  (FStr "LuckPerms.jar") Examples.loaded) as H.
    cbv zeta in H.
    change (resolve (Examples.spiget 1050) Marketplace Examples.luckperms
              (FStr "LuckPerms.jar") Examples.loaded)
      with (Ok (Some [(spiget_download "28140" 1050, FStr "LuckPerms.jar")])
              (recorded "LuckPerms.jar" 1050
                 (sent (spiget_latest "28140") Examples.loaded))) in H.
    destruct H as (ver & first & _ & Hfirst & Hne & Hs1 & _); [ discriminate | ].
    injection Hfirst as <-. exists ver. split; [ exact Hs1 | exact Hne ].
  - pose proof (resolve_outcomes Examples.build_42 ContinuousIntegration Examples.jenkins
                  (FDict [(0%Z, "A.jar"); (2%Z, "B.jar")]) Examples.started) as H.
    cbv zeta in H.
    destruct (resolve Examples.build_42 ContinuousIntegration Examples.jenkins
                (FDict [(0%Z, "A.jar"); (2%Z, "B.jar")]) Examples.started)
      as [o s1 | e s1] eqn:Hr; [ discriminate Hr | ].
    destruct H as (ver & k & Hs1 & Hk & _); [ discriminate | ].
    exists ver, k. split; [ exact Hs1 | ]. apply Hk. discriminate.
Defined.

(** Asking Spiget again after version 1050 has been recorded. *)
Lemma resolve_again_witness :
  resolve (Examples.spiget 1050) Marketplace Examples.luckperms (FStr "LuckPerms.jar")
    (recorded "LuckPerms.jar" 1050 (sent (spiget_latest "28140") Examples.loaded))
  = Ok None
       (sent (spiget_latest "28140")
          (recorded "LuckPerms.jar" 1050 (sent (spiget_latest "28140") Examples.loaded))).
Proof.
  apply (resolve_again (Examples.spiget 1050) Marketplace Examples.luckperms
           (FStr "LuckPerms.jar") Examples.loaded
           (recorded "LuckPerms.jar" 1050 (sent (spiget_latest "28140") Examples.loaded))
           [(spiget_download "28140" 1050, FStr "LuckPerms.jar")]);
    [ discriminate | reflexivity | reflexivity ].
Defined.

(** A host written in capitals, and one with an accented capital. *)
Lemma domain_of_url_witness :
  domain_of "https://CI.Ender.Zone/job/EssentialsX" = Some "ci.ender.zone"
  /\ domain_of ("https://" ++ Examples.accented ++ "/job/Plugin")%string
     = Some ("ci." ++ String "233"%char "cole.org")%string.
Proof.
  split.
  - apply (proj2 (domain_of_url "https:" "CI.Ender.Zone" "job/EssentialsX"
                    eq_refl eq_refl)).
  - apply (proj2 (domain_of_url "https:" Examples.accented "job/Plugin" eq_refl eq_refl)).
Defined.

(** A catalog key that is a bare file name. *)
Lemma url_without_domain_witness :
  run_entry Examples.unavailable Examples.rooted "WorldGuard.jar" (FStr "WorldGuard.jar")
    Examples.loaded
  = Raise IndexError (tallied 1 Examples.loaded).
Proof.
  apply (proj2 (url_without_domain Examples.unavailable Examples.rooted "WorldGuard.jar"
                  (FStr "WorldGuard.jar") Examples.loaded)).
  simpl. lia.
Defined.

Lemma resource_of_url_witness :
  resource_of Examples.luckperms = "28140".
Proof.
  apply (proj1 (resource_of_url "https://www.spigotmc.org/resources/luckperms" "28140")).
  reflexivity.
Defined.

Lemma github_api_url_witness :
  github_api Examples.github = "https://api.github.com/repos/NEZNAMY/TAB/releases/latest".
Proof.
  apply (github_api_url "https://" "/NEZNAMY/TAB"); reflexivity.
Defined.

(** A direct link that is served, under three file names: a plain one,
    which lands in the plugin directory; the empty one, which names the
    directory itself; and one that leads out of the directory and onto the
    ledger file. *)
Lemma download_one_witness :
  download (Examples.spiget 1000) Examples.rooted
    (Some [(Examples.worldguard, FStr "WorldGuard.jar")]) Examples.loaded
  = Ok tt (fetched Examples.rooted "plugins/WorldGuard.jar" "jar"
             (InPlugins "WorldGuard.jar") ∅ (sent Examples.worldguard Examples.loaded))
  /\ download (Examples.spiget 1000) Examples.rooted
       (Some [(Examples.worldguard, FStr "")]) Examples.loaded
     = Raise OSError (sent Examples.worldguard Examples.loaded)
  /\ version_file
       (final (download (Examples.spiget 1000) Examples.rooted
                 (Some [(Examples.worldguard, FStr "../plugin_versions.json")])
                 Examples.loaded))
     = Some NotJson.
Proof.
  split; [ | split ].
  - apply (proj1 (download_one (Examples.spiget 1000) Examples.rooted Examples.worldguard
                    (FStr "WorldGuard.jar") Examples.loaded (Response true None "jar") ∅
                    eq_refl eq_refl)); reflexivity.
  - apply (proj1 (download_one (Examples.spiget 1000) Examples.rooted Examples.worldguard
                    (FStr "") Examples.loaded (Response true None "jar") ∅
                    eq_refl eq_refl)); [ reflexivity | ].
    left. reflexivity.
  - apply (proj1 (download_one (Examples.spiget 1000) Examples.rooted Examples.worldguard
                    (FStr "../plugin_versions.json") Examples.loaded
                    (Response true None "jar") ∅ eq_refl eq_refl)); reflexivity.
Defined.

(** Index -1 of two artifacts is the second. *)
Lemma artifact_index_range_witness :
  indexed (Some [Some "out/A.jar"; Some "out/B.jar"]) (-1) = inr "out/B.jar".
Proof.
  apply (proj2 (artifact_index_range [Some "out/A.jar"; Some "out/B.jar"] 1
                  ltac:(repeat constructor; eauto))).
  simpl. lia.
Defined.
